(** * GeBaseClient: connection lifecycle, event bus and reconnect supervisor

    A shallow embedding of [gekitchensdk/clients/base_client.py].  The class
    [GeBaseClient] is a mutable object; its methods are modelled as state
    transformers over a record holding the fields the lifecycle code reads and
    writes.  What the methods do to the outside world (scheduling futures on
    the event loop, calling the abstract hooks, logging a warning) is recorded
    in two instrumentation fields, [pending] and [log]. *)

From stdpp Require Import base gmap list strings.
From Stdlib Require Import ZArith Lia.

Local Open Scope Z_scope.

(** ** Data model *)

(** Modelled from the spec: the enumeration [GeClientState] of
    [clients/states.py], which is imported but is not among the sources;
    section 3 of the specification lists its seven members. *)
Inductive GeClientState : Set :=
| INITIALIZING
| AUTHORIZING_OAUTH
| WAITING
| CONNECTED
| DROPPED
| DISCONNECTING
| DISCONNECTED.

#[global] Instance GeClientState_eq_dec : EqDecision GeClientState.
Proof. solve_decision. Defined.

(** Modelled from the spec: the event-name constants of [clients/const.py],
    imported but not among the sources.  Section 6 fixes the vocabulary; only
    the fact that the six names are pairwise different is used below. *)
Definition EVENT_STATE_CHANGED : string := "STATE_CHANGED".
Definition EVENT_CONNECTED : string := "CONNECTED".
Definition EVENT_DISCONNECTED : string := "DISCONNECTED".
Definition EVENT_APPLIANCE_INITIAL_UPDATE : string := "APPLIANCE_INITIAL_UPDATE".
Definition EVENT_APPLIANCE_AVAILABLE : string := "APPLIANCE_AVAILABLE".
Definition EVENT_APPLIANCE_UNAVAILABLE : string := "APPLIANCE_UNAVAILABLE".

Module GeAppliance.

(** Modelled from the spec: the class [GeAppliance] of [ge_appliance.py],
    imported but not among the sources.  Section 3 gives it a tracked
    availability flag and an initialized flag; [set_available] and
    [set_unavailable] are the two mutators the client calls. *)
Record t : Set := mk {
  mac_addr : string;
  available : bool;
  initialized : bool
}.

Definition set_available (a : t) : t :=
  {| mac_addr := mac_addr a; available := true; initialized := initialized a |}.

Definition set_unavailable (a : t) : t :=
  {| mac_addr := mac_addr a; available := false; initialized := initialized a |}.

Definition set_initialized (a : t) : t :=
  {| mac_addr := mac_addr a; available := available a; initialized := true |}.

End GeAppliance.

(** The coroutine functions that can sit in a handler list: the client's own
    bound method [self._on_state_change], and coroutine functions supplied by
    observers, told apart by a number. *)
Inductive callback : Set :=
| cb_on_state_change
| cb_observer (n : nat).

#[global] Instance callback_eq_dec : EqDecision callback.
Proof. solve_decision. Defined.

(** What [list.remove] can be asked to look for: a callback, or the Python
    builtin function [callable], which is no coroutine function and so is
    equal to no element of a handler list. *)
Inductive pyobject : Set :=
| obj_callback (cb : callback)
| obj_builtin_callable.

Definition pyobject_eqb (x : pyobject) (cb : callback) : bool :=
  match x with
  | obj_callback cb' => bool_decide (cb' = cb)
  | obj_builtin_callable => false
  end.

(** Positional arguments carried by an event.  An appliance is a shared
    object; the payload refers to it by its address. *)
Inductive pyval : Set :=
| VState (s : GeClientState)
| VAppliance (mac : string).

(** A future created by [asyncio.ensure_future(cb( *args ))]. *)
Definition task : Set := callback * list pyval.

(** The observable actions of the client, in the order they happen.  [Drive]
    carries the value the retry counter has when the drive routine is called.
    Of the logger only the two [_LOGGER.warn] calls are traced. *)
Inductive action : Set :=
| Published (event : string) (args : list pyval)
| Ran (observer : nat) (args : list pyval)
| Drive (retries : Z)
| RefreshLogin
| Teardown
| Warned (what : string)
| NeverAwaited (coroutine : string)
| Slept (seconds : Z).

#[global] Instance pyval_eq_dec : EqDecision pyval.
Proof. solve_decision. Defined.

#[global] Instance action_eq_dec : EqDecision action.
Proof. solve_decision. Defined.

(** The fields of [GeBaseClient] that the lifecycle code uses.  The
    credentials, the HTTP session, the OAuth tokens with their expiry time
    and the appliance dictionary belong to the authentication and transport
    collaborators and are left out.  [pending] is the event loop's queue of
    futures scheduled by [async_event] and not yet run; [log] is the trace of
    actions so far, oldest first. *)
Record GeBaseClient : Type := mkClient {
  account_username : string;
  account_password : string;
  _state : GeClientState;
  _connected : bool;
  _disconnect_requested : bool;
  _retries_since_last_connect : Z;
  _event_handlers : gmap string (list callback);
  pending : list task;
  log : list action
}.

Definition with_state (s : GeClientState) (c : GeBaseClient) : GeBaseClient :=
  mkClient (account_username c) (account_password c) s (_connected c)
    (_disconnect_requested c) (_retries_since_last_connect c)
    (_event_handlers c) (pending c) (log c).

Definition with_connected (b : bool) (c : GeBaseClient) : GeBaseClient :=
  mkClient (account_username c) (account_password c) (_state c) b
    (_disconnect_requested c) (_retries_since_last_connect c)
    (_event_handlers c) (pending c) (log c).

Definition with_disconnect_requested (b : bool) (c : GeBaseClient) : GeBaseClient :=
  mkClient (account_username c) (account_password c) (_state c) (_connected c)
    b (_retries_since_last_connect c) (_event_handlers c) (pending c) (log c).

Definition with_retries (n : Z) (c : GeBaseClient) : GeBaseClient :=
  mkClient (account_username c) (account_password c) (_state c) (_connected c)
    (_disconnect_requested c) n (_event_handlers c) (pending c) (log c).

Definition with_event_handlers (h : gmap string (list callback))
    (c : GeBaseClient) : GeBaseClient :=
  mkClient (account_username c) (account_password c) (_state c) (_connected c)
    (_disconnect_requested c) (_retries_since_last_connect c) h (pending c)
    (log c).

Definition with_pending (q : list task) (c : GeBaseClient) : GeBaseClient :=
  mkClient (account_username c) (account_password c) (_state c) (_connected c)
    (_disconnect_requested c) (_retries_since_last_connect c)
    (_event_handlers c) q (log c).

Definition with_log (l : list action) (c : GeBaseClient) : GeBaseClient :=
  mkClient (account_username c) (account_password c) (_state c) (_connected c)
    (_disconnect_requested c) (_retries_since_last_connect c)
    (_event_handlers c) (pending c) l.

(** ** Methods as state transformers *)

(** A method body: it runs on the client object and returns a value.  For an
    [async def] method this is the body of the coroutine. *)
Definition M (A : Type) : Type := GeBaseClient -> A * GeBaseClient.

Definition ret {A : Type} (a : A) : M A := fun c => (a, c).

Definition bind {A B : Type} (m : M A) (k : A -> M B) : M B :=
  fun c => let (a, c') := m c in k a c'.

Notation "x <- m ;; k" := (bind m (fun x => k))
  (at level 100, m at next level, right associativity).
Notation "m ;; k" := (bind m (fun _ => k))
  (at level 100, right associativity).

Definition get {A : Type} (field : GeBaseClient -> A) : M A :=
  fun c => (field c, c).

Definition modify (f : GeBaseClient -> GeBaseClient) : M unit :=
  fun c => (tt, f c).

Definition note (a : action) : M unit :=
  modify (fun c => with_log (log c ++ [a]) c).

(** [await m]: the coroutine is run to completion where it is awaited. *)
Definition await {A : Type} (m : M A) : M A := m.

(** A call of a coroutine function whose result is not awaited: Python builds
    the coroutine object and drops it, and none of its body runs. *)
Definition never_awaited {A : Type} (name : string) (m : M A) : M unit :=
  note (NeverAwaited name).

Definition exec {A : Type} (m : M A) (c : GeBaseClient) : GeBaseClient :=
  snd (m c).

Definition eval {A : Type} (m : M A) (c : GeBaseClient) : A :=
  fst (m c).

(** ** The event bus *)

(** [self.event_handlers[event]] on a [defaultdict(list)]: a missing key is
    created with an empty list. *)
Definition event_handlers_getitem (event : string) : M (list callback) :=
  fun c =>
    match _event_handlers c !! event with
    | Some l => (l, c)
    | None => ([], with_event_handlers (<[event := []]> (_event_handlers c)) c)
    end.

(** The handlers an event has, as a lookup sees them. *)
Definition handlers_of (event : string) (c : GeBaseClient) : list callback :=
  default [] (_event_handlers c !! event).

Definition ensure_future (t : task) : M unit :=
  modify (fun c => with_pending (pending c ++ [t]) c).

Fixpoint schedule (cbs : list callback) (args : list pyval) : M unit :=
  match cbs with
  | [] => ret tt
  | cb :: rest => ensure_future (cb, args) ;; schedule rest args
  end.

(** [async_event]: one future per registered callback, in list order; none of
    them runs before the publisher gives control back to the event loop. *)
Definition async_event (event : string) (args : list pyval) : M unit :=
  note (Published event args) ;;
  cbs <- event_handlers_getitem event ;;
  schedule cbs args.

Inductive exn : Set :=
| NotImplementedError.

(** [add_event_handler]; [Some e] stands for the exception it raises. *)
Definition add_event_handler (event : string) (cb : callback)
    (disposable : bool) : M (option exn) :=
  if disposable then ret (Some NotImplementedError)
  else
    l <- event_handlers_getitem event ;;
    modify (fun c =>
      with_event_handlers (<[event := l ++ [cb]]> (_event_handlers c)) c) ;;
    ret None.

(** [list.remove(x)]: drops the first element equal to [x]; [None] stands
    for the [ValueError] raised when there is none. *)
Fixpoint list_remove (x : pyobject) (l : list callback) : option (list callback) :=
  match l with
  | [] => None
  | y :: rest =>
      if pyobject_eqb x y then Some rest
      else match list_remove x rest with
           | Some rest' => Some (y :: rest')
           | None => None
           end
  end.

(** [remove_event_handler].  The source passes the builtin [callable] to
    [list.remove], not its parameter [callback]; the bare [except] turns the
    [ValueError] into a warning. *)
Definition remove_event_handler (event : string) (callback : callback) : M unit :=
  l <- event_handlers_getitem event ;;
  match list_remove obj_builtin_callable l with
  | Some l' =>
      modify (fun c => with_event_handlers (<[event := l']> (_event_handlers c)) c)
  | None => note (Warned "could not remove event handler")
  end.

Definition _initialize_event_handlers : M unit :=
  modify (with_event_handlers ∅) ;;
  add_event_handler EVENT_STATE_CHANGED cb_on_state_change false ;;
  ret tt.

Definition clear_event_handlers : M unit := _initialize_event_handlers.

(** ** The state machine *)

Definition __init__ (username password : string) : GeBaseClient :=
  exec _initialize_event_handlers
    (mkClient username password INITIALIZING false false (-1) ∅ [] []).

Definition connected (c : GeBaseClient) : bool :=
  negb (bool_decide (_state c ∈ [DISCONNECTING; DISCONNECTED])).

Definition available (c : GeBaseClient) : bool :=
  bool_decide (_state c = CONNECTED).

Definition _set_state (new_state : GeClientState) : M bool :=
  cur <- get _state ;;
  if bool_decide (cur ≠ new_state) then
    let old_state := cur in
    modify (with_state new_state) ;;
    await (async_event EVENT_STATE_CHANGED [VState old_state; VState new_state]) ;;
    ret true
  else ret false.

Definition _on_state_change (old_state new_state : GeClientState) : M unit :=
  (if bool_decide (new_state = CONNECTED)
   then await (async_event EVENT_CONNECTED []) else ret tt) ;;
  (if bool_decide (new_state = DISCONNECTED)
   then await (async_event EVENT_DISCONNECTED []) else ret tt).

(** The abstract hook [self._disconnect()]: the transport's teardown. *)
Definition _disconnect : M unit := note Teardown.

Definition disconnect : M unit :=
  await (_set_state DISCONNECTING) ;;
  modify (with_disconnect_requested true) ;;
  modify (with_connected false) ;;
  _disconnect ;;
  await (_set_state DISCONNECTED) ;;
  ret tt.

Definition _set_connected : M unit :=
  modify (with_retries (-1)) ;;
  await (_set_state CONNECTED) ;;
  ret tt.

(** The appliance is an object shared with the caller: the method returns it
    as it has left it. *)
Definition _set_appliance_availability (appliance : GeAppliance.t)
    (avail : bool) : M GeAppliance.t :=
  if avail && negb (GeAppliance.available appliance) then
    let appliance := GeAppliance.set_available appliance in
    await (async_event EVENT_APPLIANCE_AVAILABLE
             [VAppliance (GeAppliance.mac_addr appliance)]) ;;
    ret appliance
  else if negb avail && GeAppliance.available appliance then
    let appliance := GeAppliance.set_unavailable appliance in
    await (async_event EVENT_APPLIANCE_UNAVAILABLE
             [VAppliance (GeAppliance.mac_addr appliance)]) ;;
    ret appliance
  else ret appliance.

(** [has_type] says whether [ErdCode.APPLIANCE_TYPE] is among the updates. *)
Definition _maybe_trigger_appliance_init_event (appliance : GeAppliance.t)
    (has_type : bool) : M GeAppliance.t :=
  if has_type && negb (GeAppliance.initialized appliance) then
    let appliance := GeAppliance.set_initialized appliance in
    await (async_event EVENT_APPLIANCE_INITIAL_UPDATE
             [VAppliance (GeAppliance.mac_addr appliance)]) ;;
    ret appliance
  else ret appliance.

(** [asyncio.sleep(seconds)], when it is awaited. *)
Definition asyncio_sleep (seconds : Z) : M unit := note (Slept seconds).

(** ** The event loop and the collaborators *)

(** Running one future.  [_on_state_change] takes the old and the new state;
    the client registers it for [STATE_CHANGED] only, whose payload is that
    pair.  An observer's coroutine is opaque: that it ran is recorded, and
    whatever it does to the client it does through the calls of [call]
    below. *)
Definition run_task (t : task) : M unit :=
  match t with
  | (cb_on_state_change, [VState old_state; VState new_state]) =>
      _on_state_change old_state new_state
  | (cb_on_state_change, _) => ret tt
  | (cb_observer n, args) => note (Ran n args)
  end.

Fixpoint run_tasks (ts : list task) : M unit :=
  match ts with
  | [] => ret tt
  | t :: rest => run_task t ;; run_tasks rest
  end.

(** One pass of the event loop: the futures that are ready now are run in
    order; those they schedule wait for the next pass. *)
Definition event_loop_pass : M unit :=
  ready <- get pending ;;
  modify (with_pending []) ;;
  run_tasks ready.

(** What the transport, the authenticator and the observers can do to the
    client while the supervisor is suspended in one of its two awaited
    hooks.  Observers register their own coroutine functions; a
    [NotImplementedError] of [add_event_handler] goes to the caller and
    leaves the client as it was. *)
Inductive call : Set :=
| call_add_event_handler (event : string) (observer : nat) (disposable : bool)
| call_remove_event_handler (event : string) (cb : callback)
| call_clear_event_handlers
| call_set_state (new_state : GeClientState)
| call_set_connected
| call_disconnect
| call_set_appliance_availability (appliance : GeAppliance.t) (avail : bool)
| call_maybe_trigger_appliance_init_event (appliance : GeAppliance.t) (has_type : bool)
| call_event_loop_pass.

Definition do_call (k : call) : M unit :=
  match k with
  | call_add_event_handler event n disposable =>
      add_event_handler event (cb_observer n) disposable ;; ret tt
  | call_remove_event_handler event cb => remove_event_handler event cb
  | call_clear_event_handlers => clear_event_handlers
  | call_set_state new_state => await (_set_state new_state) ;; ret tt
  | call_set_connected => await _set_connected
  | call_disconnect => await disconnect
  | call_set_appliance_availability a avail =>
      await (_set_appliance_availability a avail) ;; ret tt
  | call_maybe_trigger_appliance_init_event a has_type =>
      await (_maybe_trigger_appliance_init_event a has_type) ;; ret tt
  | call_event_loop_pass => event_loop_pass
  end.

Fixpoint do_calls (ks : list call) : M unit :=
  match ks with
  | [] => ret tt
  | k :: rest => do_call k ;; do_calls rest
  end.

(** What happens in one turn of the supervisor's loop inside its two abstract
    hooks: the calls made on the client while [_async_run_client] runs and
    whether it ends by raising an [Exception], and the same for
    [async_do_refresh_login_flow]. *)
Record cycle : Set := mkCycle {
  drive_calls : list call;
  drive_raises : bool;
  refresh_calls : list call;
  refresh_raises : bool
}.

(** The abstract hooks; the result says whether the hook raised. *)
Definition _async_run_client (cy : cycle) : M bool :=
  retries <- get _retries_since_last_connect ;;
  note (Drive retries) ;; do_calls (drive_calls cy) ;; ret (drive_raises cy).

Definition async_do_refresh_login_flow (cy : cycle) : M bool :=
  note RefreshLogin ;; do_calls (refresh_calls cy) ;; ret (refresh_raises cy).

(** ** The reconnect supervisor *)

Inductive flow : Set := Continue | Break.

(** [Returned]: [async_run_client] ran to its end.  [Suspended]: the script
    of cycles ran out, that is, the drive call being awaited has not come
    back. *)
Inductive outcome : Set := Returned | Suspended.

Section Supervisor.

(** [MAX_RETRIES] of [clients/const.py], which is not among the sources. *)
Variable MAX_RETRIES : Z.

(** The [except Exception] clause: on the first connection attempt the
    loop is to be left, otherwise it goes on. *)
Definition except_clause (raised : bool) : M flow :=
  if raised then
    retries <- get _retries_since_last_connect ;;
    if bool_decide (retries = -1) then
      note (Warned "Unhandled exception on first connect attempt") ;;
      ret Break
    else ret Continue
  else ret Continue.

(** The [try] / [except] / [finally] statement in the body of the [while].
    A [break] in the [except] clause takes effect only after the [finally]
    clause has run; a [break] inside the [finally] clause leaves at once. *)
Definition loop_body (cy : cycle) : M flow :=
  raised <- await (_async_run_client cy) ;;
  after_try <- except_clause raised ;;
  await (_set_state DROPPED) ;;
  requested <- get _disconnect_requested ;;
  refresh_failed <-
    (if negb requested then
       await (_set_state WAITING) ;;
       never_awaited "asyncio.sleep(5)" (asyncio_sleep 5) ;;
       await (async_do_refresh_login_flow cy)
     else ret false) ;;
  if refresh_failed then ret Break
  else
    modify (fun c => with_retries (_retries_since_last_connect c + 1) c) ;;
    ret after_try.

(** The [while] loop, one cycle of the script per turn. *)
Fixpoint supervise (script : list cycle) : M outcome :=
  requested <- get _disconnect_requested ;;
  if requested then ret Returned
  else
    retries <- get _retries_since_last_connect ;;
    if bool_decide (retries > MAX_RETRIES) then ret Returned
    else
      match script with
      | [] => ret Suspended
      | cy :: rest =>
          f <- loop_body cy ;;
          match f with
          | Break => ret Returned
          | Continue => supervise rest
          end
      end.

Definition async_run_client (script : list cycle) : M outcome :=
  modify (with_disconnect_requested false) ;;
  o <- supervise script ;;
  match o with
  | Returned => never_awaited "self.disconnect()" disconnect ;; ret Returned
  | Suspended => ret Suspended
  end.

End Supervisor.

(** ** Vocabulary of the properties *)

(** A method keeps a property of the client. *)
Definition preserves {A : Type} (P : GeBaseClient -> Prop) (m : M A) : Prop :=
  forall c, P c -> P (exec m c).

(** The calls a property survives: all of them, or all but
    [_set_connected] when the property does not survive a reset of the retry
    counter. *)
Definition call_ok (resets : bool) (k : call) : Prop :=
  resets = true \/ k <> call_set_connected.

(** The same for the calls made inside the two hooks of a cycle. *)
Definition cycle_ok (resets : bool) (cy : cycle) : Prop :=
  Forall (call_ok resets) (drive_calls cy) /\
  Forall (call_ok resets) (refresh_calls cy).

(** A run of [_set_state] calls, with the values they return. *)
Fixpoint set_states (news : list GeClientState) : M (list bool) :=
  match news with
  | [] => ret []
  | new_state :: rest =>
      r <- await (_set_state new_state) ;;
      rs <- set_states rest ;;
      ret (r :: rs)
  end.

(** The specification's words: a call with a state different from the
    current one publishes one [STATE_CHANGED] with the pair (old, new) and
    reports a change; a call with the current state publishes nothing and
    reports no change. *)
Fixpoint spec_state_events (cur : GeClientState) (news : list GeClientState)
    : list action :=
  match news with
  | [] => []
  | new_state :: rest =>
      if decide (cur = new_state) then spec_state_events cur rest
      else Published EVENT_STATE_CHANGED [VState cur; VState new_state]
             :: spec_state_events new_state rest
  end.

Fixpoint spec_state_reports (cur : GeClientState) (news : list GeClientState)
    : list bool :=
  match news with
  | [] => []
  | new_state :: rest =>
      if decide (cur = new_state) then false :: spec_state_reports cur rest
      else true :: spec_state_reports new_state rest
  end.

(** A run of [_set_appliance_availability] calls on one appliance. *)
Fixpoint set_availabilities (appliance : GeAppliance.t) (vs : list bool)
    : M GeAppliance.t :=
  match vs with
  | [] => ret appliance
  | v :: rest =>
      appliance' <- await (_set_appliance_availability appliance v) ;;
      set_availabilities appliance' rest
  end.

(** The specification's words: [APPLIANCE_AVAILABLE] when the flag flips from
    false to true, [APPLIANCE_UNAVAILABLE] when it flips from true to false,
    nothing when it is set to the value it has. *)
Fixpoint spec_availability_events (mac : string) (cur : bool) (vs : list bool)
    : list action :=
  match vs with
  | [] => []
  | v :: rest =>
      match cur, v with
      | false, true =>
          Published EVENT_APPLIANCE_AVAILABLE [VAppliance mac]
            :: spec_availability_events mac true rest
      | true, false =>
          Published EVENT_APPLIANCE_UNAVAILABLE [VAppliance mac]
            :: spec_availability_events mac false rest
      | _, _ => spec_availability_events mac cur rest
      end
  end.


(** The clients the constructor and the methods can produce. *)
Inductive reachable : GeBaseClient -> Prop :=
| reachable_init (username password : string) :
    reachable (__init__ username password)
| reachable_call (k : call) (c : GeBaseClient) :
    reachable c -> reachable (exec (do_call k) c)
| reachable_run (max_retries : Z) (script : list cycle) (c : GeBaseClient) :
    reachable c -> reachable (exec (async_run_client max_retries script) c).

(** The internal listener is among the handlers of [STATE_CHANGED]. *)
Definition listener_registered (c : GeBaseClient) : Prop :=
  cb_on_state_change ∈ handlers_of EVENT_STATE_CHANGED c.

(** No log entry matters to the property. *)
Definition no_loud (a : action) : bool := false.

(** The log only grows. *)
Definition log_extends (before : list action) (c : GeBaseClient) : Prop :=
  exists l, log c = before ++ l.

(** The specific event the specification attaches to entering a state. *)
Definition lifecycle_event (s : GeClientState) : option string :=
  match s with
  | CONNECTED => Some EVENT_CONNECTED
  | DISCONNECTED => Some EVENT_DISCONNECTED
  | _ => None
  end.

(** A cycle in which no collaborator confirms a connection. *)
Definition never_confirms (cy : cycle) : Prop :=
  (call_set_connected ∉ drive_calls cy) /\
  (call_set_connected ∉ refresh_calls cy).

(** Log entries of a sleep that was awaited. *)
Definition is_slept (a : action) : bool :=
  match a with Slept _ => true | _ => false end.

(** Log entries of a drive call. *)
Definition is_drive (a : action) : bool :=
  match a with Drive _ => true | _ => false end.

(** ** Further vocabulary *)

(** A run of [_maybe_trigger_appliance_init_event] calls on one appliance;
    each element says whether the update carries the appliance type. *)
Fixpoint trigger_updates (appliance : GeAppliance.t) (updates : list bool)
    : M GeAppliance.t :=
  match updates with
  | [] => ret appliance
  | has_type :: rest =>
      appliance' <-
        await (_maybe_trigger_appliance_init_event appliance has_type) ;;
      trigger_updates appliance' rest
  end.

(** The client after the three stages of a turn of the loop: the drive
    call, the [except] clause, and the [_set_state(DROPPED)] that opens the
    [finally] clause. *)
Definition after_drive (cy : cycle) (c : GeBaseClient) : GeBaseClient :=
  exec (_async_run_client cy) c.

Definition after_dropped (cy : cycle) (c : GeBaseClient) : GeBaseClient :=
  exec (_set_state DROPPED)
    (exec (except_clause (drive_raises cy)) (after_drive cy c)).

(** The client after the refresh login of a turn in which disconnect was not
    requested. *)
Definition after_refresh (cy : cycle) (c : GeBaseClient) : GeBaseClient :=
  exec (_set_state WAITING ;;
        never_awaited "asyncio.sleep(5)" (asyncio_sleep 5) ;;
        async_do_refresh_login_flow cy)
    (after_dropped cy c).

(** Whether the [except] clause asks for the loop to be left. *)
Definition first_attempt_failed (cy : cycle) (c : GeBaseClient) : bool :=
  drive_raises cy &&
  bool_decide (_retries_since_last_connect (after_drive cy c) = -1).

(** ** Credentials and OAuth2 tokens *)

(** The values of a token response: strings and whole numbers. *)
Inductive json : Set :=
| JString (s : string)
| JNumber (n : Z).

(** Modelled from the spec: the exception classes of [exception.py],
    imported but not among the sources; section 7 names [AuthFailed] and
    [ServerError], and [user_id] raises [GeNotAuthenticatedError].
    [KeyError] and [TypeError] are Python's own; [OtherError] stands for
    what the HTTP client, the decoders and the parsers raise. *)
Inductive error : Set :=
| GeAuthFailedError (message : string)
| GeGeneralServerError (message : string)
| GeNotAuthenticatedError
| KeyError
| TypeError
| OtherError (n : nat).

(** What the code reads from an HTTP response: [resp.status],
    [await resp.text()], [await resp.json()] (an object, or the error that
    decoding raises) and the [code] parameter of the [Location] header (or
    the error that looking it up raises). *)
Record response : Type := mkResponse {
  status : Z;
  text : string;
  json_body : gmap string json + error;
  location_code : string + error
}.

(** A request gives a response, or raises. *)
Definition request : Type := (response + error)%type.

(** The fields of [GeBaseClient] that hold the session, the credentials and
    the tokens; the time is in seconds. *)
Record store : Type := mkStore {
  _session : option nat;
  _credentials : option (gmap string string);
  _access_token : option json;
  _refresh_token : option json;
  _token_expiration_time : Z
}.

(** The store as the constructor leaves it, at time [now]. *)
Definition store__init__ (now : Z) : store :=
  mkStore None None None None now.

Definition with_session (s : option nat) (st : store) : store :=
  mkStore s (_credentials st) (_access_token st) (_refresh_token st)
    (_token_expiration_time st).

Definition with_credentials (d : option (gmap string string)) (st : store)
    : store :=
  mkStore (_session st) d (_access_token st) (_refresh_token st)
    (_token_expiration_time st).

Definition with_access_token (t : option json) (st : store) : store :=
  mkStore (_session st) (_credentials st) t (_refresh_token st)
    (_token_expiration_time st).

Definition with_refresh_token (t : option json) (st : store) : store :=
  mkStore (_session st) (_credentials st) (_access_token st) t
    (_token_expiration_time st).

Definition with_token_expiration_time (t : Z) (st : store) : store :=
  mkStore (_session st) (_credentials st) (_access_token st)
    (_refresh_token st) t.

(** The property [user_id]: a missing dictionary ([TypeError]) and a missing
    key ([KeyError]) both become [GeNotAuthenticatedError]. *)
Definition user_id (st : store) : string + error :=
  match _credentials st with
  | None => inr GeNotAuthenticatedError
  | Some credentials =>
      match credentials !! "userId" with
      | Some v => inl v
      | None => inr GeNotAuthenticatedError
      end
  end.

(** The two status tests that follow every request. *)
Definition status_error (resp : response) : option error :=
  if (400 <=? status resp) && (status resp <? 500)
  then Some (GeAuthFailedError (text resp))
  else if 500 <=? status resp
  then Some (GeGeneralServerError (text resp))
  else None.

Definition token_failure : error := GeAuthFailedError "Failed to get a token".

(** The [try] block at the end of [_async_refresh_oauth2_token]: the three
    assignments in order, a missing key raising [GeAuthFailedError] after the
    assignments before it have been made.  [refresh_token] is read with
    [dict.get] and falls back on the token held. *)
Definition store_refreshed_token (oauth_token : gmap string json) (now : Z)
    (st : store) : option error * store :=
  match oauth_token !! "access_token" with
  | None => (Some token_failure, st)
  | Some access =>
      let st := with_access_token (Some access) st in
      match oauth_token !! "expires_in" with
      | None => (Some token_failure, st)
      | Some (JString _) => (Some TypeError, st)
      | Some (JNumber expires_in) =>
          let st := with_token_expiration_time (now + (expires_in - 120)) st in
          let st :=
            with_refresh_token
              (match oauth_token !! "refresh_token" with
               | Some r => Some r
               | None => _refresh_token st
               end) st in
          (None, st)
      end
  end.

(** The [try] block at the end of [_async_get_oauth2_token]: here
    [refresh_token] is read with a subscript and must be present. *)
Definition store_new_token (oauth_token : gmap string json) (now : Z)
    (st : store) : option error * store :=
  match oauth_token !! "access_token" with
  | None => (Some token_failure, st)
  | Some access =>
      let st := with_access_token (Some access) st in
      match oauth_token !! "expires_in" with
      | None => (Some token_failure, st)
      | Some (JString _) => (Some TypeError, st)
      | Some (JNumber expires_in) =>
          let st := with_token_expiration_time (now + (expires_in - 120)) st in
          match oauth_token !! "refresh_token" with
          | None => (Some token_failure, st)
          | Some r => (None, with_refresh_token (Some r) st)
          end
      end
  end.

(** A request followed by its two status tests. *)
Definition checked (req : request) : response + error :=
  match req with
  | inr e => inr e
  | inl resp =>
      match status_error resp with
      | Some e => inr e
      | None => inl resp
      end
  end.

(** [_async_refresh_oauth2_token]; [req] is what the POST to the token
    endpoint gives and [now] the time.  The result holds the exception
    raised, if any, and the store as the call leaves it. *)
Definition _async_refresh_oauth2_token (req : request) (now : Z) (st : store)
    : M (option error * store) :=
  await (_set_state AUTHORIZING_OAUTH) ;;
  ret (match checked req with
       | inr e => (Some e, st)
       | inl resp =>
           match json_body resp with
           | inr e => (Some e, st)
           | inl oauth_token => store_refreshed_token oauth_token now st
           end
       end).

(** [_async_get_oauth2_token]: the GET of the sign-in page, the building of
    the form from the page ([form_error] is what the regular expression and
    the HTML parser raise, if anything), the POST of the form, whose
    redirect carries the code, and the POST to the token endpoint. *)
Definition _async_get_oauth2_token (page : request) (form_error : option error)
    (signin : request) (token : request) (now : Z) (st : store)
    : M (option error * store) :=
  await (_set_state AUTHORIZING_OAUTH) ;;
  ret (match checked page with
       | inr e => (Some e, st)
       | inl _ =>
           match form_error with
           | Some e => (Some e, st)
           | None =>
               match checked signin with
               | inr e => (Some e, st)
               | inl resp =>
                   match location_code resp with
                   | inr e => (Some e, st)
                   | inl _ =>
                       match checked token with
                       | inr e => (Some e, st)
                       | inl resp =>
                           match json_body resp with
                           | inr e => (Some e, st)
                           | inl oauth_token =>
                               store_new_token oauth_token now st
                           end
                       end
                   end
               end
           end
       end).

(** The abstract [async_do_full_login_flow]: the calls it makes on the
    client, and the credentials it returns or the error it raises. *)
Record login : Type := mkLogin {
  login_calls : list call;
  login_result : gmap string string + error
}.

Definition async_do_full_login_flow (lg : login)
    : M (gmap string string + error) :=
  do_calls (login_calls lg) ;; ret (login_result lg).

(** [async_get_credentials]: the session is stored before the login flow is
    awaited, the credentials only when it returns. *)
Definition async_get_credentials (session : nat) (lg : login) (st : store)
    : M (option error * store) :=
  let st := with_session (Some session) st in
  r <- await (async_do_full_login_flow lg) ;;
  match r with
  | inl credentials => ret (None, with_credentials (Some credentials) st)
  | inr e => ret (Some e, st)
  end.

(** [async_get_credentials_and_run]; the result holds the exception that
    the login raised, or how the supervisor ended. *)
Definition async_get_credentials_and_run (max_retries : Z) (session : nat)
    (lg : login) (script : list cycle) (st : store)
    : M ((error + outcome) * store) :=
  r <- await (async_get_credentials session lg st) ;;
  match r with
  | (Some e, st) => ret (inl e, st)
  | (None, st) =>
      o <- await (async_run_client max_retries script) ;;
      ret (inr o, st)
  end.

(** * Properties *)

(** ** Running a method body *)

Lemma exec_bind {A B : Type} (m : M A) (k : A -> M B) (c : GeBaseClient) :
  exec (bind m k) c = exec (k (eval m c)) (exec m c).
Proof. unfold exec, eval, bind. destruct (m c); reflexivity. Qed.

Lemma eval_bind {A B : Type} (m : M A) (k : A -> M B) (c : GeBaseClient) :
  eval (bind m k) c = eval (k (eval m c)) (exec m c).
Proof. unfold exec, eval, bind. destruct (m c); reflexivity. Qed.

Lemma exec_ret {A : Type} (a : A) (c : GeBaseClient) : exec (ret a) c = c.
Proof. reflexivity. Qed.

Lemma eval_ret {A : Type} (a : A) (c : GeBaseClient) : eval (ret a) c = a.
Proof. reflexivity. Qed.

Lemma exec_get {A : Type} (field : GeBaseClient -> A) (c : GeBaseClient) :
  exec (get field) c = c.
Proof. reflexivity. Qed.

Lemma eval_get {A : Type} (field : GeBaseClient -> A) (c : GeBaseClient) :
  eval (get field) c = field c.
Proof. reflexivity. Qed.

Lemma exec_modify (f : GeBaseClient -> GeBaseClient) (c : GeBaseClient) :
  exec (modify f) c = f c.
Proof. reflexivity. Qed.

Lemma exec_note (a : action) (c : GeBaseClient) :
  exec (note a) c = with_log (log c ++ [a]) c.
Proof. reflexivity. Qed.

Lemma run_eta {A : Type} (m : M A) (c : GeBaseClient) :
  m c = (eval m c, exec m c).
Proof. unfold exec, eval. destruct (m c); reflexivity. Qed.

(** [list.remove(callable)] finds nothing in a list of coroutine functions. *)
Lemma list_remove_builtin_callable (l : list callback) :
  list_remove obj_builtin_callable l = None.
Proof. induction l as [|y l IH]; simpl; [reflexivity | now rewrite IH]. Qed.

Lemma handlers_of_getitem (event event' : string) (c : GeBaseClient) :
  handlers_of event' (exec (event_handlers_getitem event) c) = handlers_of event' c.
Proof.
  unfold exec, event_handlers_getitem, handlers_of.
  destruct (_event_handlers c !! event) eqn:E; simpl; [reflexivity|].
  destruct (decide (event = event')) as [->|Hne].
  - now rewrite lookup_insert_eq, E.
  - now rewrite lookup_insert_ne.
Qed.




Lemma handlers_of_with_state (event : string) (s : GeClientState)
    (c : GeBaseClient) :
  handlers_of event (with_state s c) = handlers_of event c.
Proof. reflexivity. Qed.

Lemma handlers_of_with_pending (event : string) (q : list task)
    (c : GeBaseClient) :
  handlers_of event (with_pending q c) = handlers_of event c.
Proof. reflexivity. Qed.

Lemma handlers_of_with_retries (event : string) (n : Z) (c : GeBaseClient) :
  handlers_of event (with_retries n c) = handlers_of event c.
Proof. reflexivity. Qed.

Lemma eval_getitem (event : string) (c : GeBaseClient) :
  eval (event_handlers_getitem event) c = handlers_of event c.
Proof.
  unfold eval, event_handlers_getitem, handlers_of.
  destruct (_event_handlers c !! event); reflexivity.
Qed.

(** ** Invariants of the whole client *)

Lemma preserves_ret {A : Type} (P : GeBaseClient -> Prop) (a : A) :
  preserves P (ret a).
Proof. intros c H; exact H. Qed.

Lemma preserves_get {A : Type} (P : GeBaseClient -> Prop)
    (field : GeBaseClient -> A) :
  preserves P (get field).
Proof. intros c H; exact H. Qed.

Lemma preserves_bind {A B : Type} (P : GeBaseClient -> Prop) (m : M A)
    (k : A -> M B) :
  preserves P m -> (forall a, preserves P (k a)) -> preserves P (bind m k).
Proof. intros Hm Hk c H. rewrite exec_bind. apply Hk, Hm, H. Qed.

Lemma preserves_modify (P : GeBaseClient -> Prop)
    (f : GeBaseClient -> GeBaseClient) :
  (forall c, P c -> P (f c)) -> preserves P (modify f).
Proof. intros Hf c H. apply Hf, H. Qed.

Ltac preserve_step :=
  cbv zeta;
  lazymatch goal with
  | |- preserves _ (bind _ _) => apply preserves_bind; [|intros ?]
  | |- preserves _ (ret _) => apply preserves_ret
  | |- preserves _ (get _) => apply preserves_get
  | |- preserves _ (await _) => unfold await
  | |- preserves _ (if ?b then _ else _) => destruct b
  end.

(** A property of the client that survives every method: what it has to
    survive is stated once, field by field.  [loud] marks the log entries the
    property is sensitive to; only [Slept] and [Drive] may be marked.
    [resets] says whether the property survives the retry counter being set
    back to -1. *)
Section Frame.

Variable MAX_RETRIES : Z.
Variable P : GeBaseClient -> Prop.
Variable loud : action -> bool.
Variable resets : bool.

Hypothesis loud_only :
  forall a, loud a = true ->
    match a with Slept _ | Drive _ => True | _ => False end.
Hypothesis frame_state : forall s c, P c -> P (with_state s c).
Hypothesis frame_connected : forall b c, P c -> P (with_connected b c).
Hypothesis frame_requested :
  forall b c, P c -> P (with_disconnect_requested b c).
Hypothesis frame_pending : forall q c, P c -> P (with_pending q c).
Hypothesis frame_note :
  forall a c, loud a = false -> P c -> P (with_log (log c ++ [a]) c).
Hypothesis frame_drive :
  forall c, P c -> _retries_since_last_connect c <= MAX_RETRIES ->
    P (with_log (log c ++ [Drive (_retries_since_last_connect c)]) c).
Hypothesis frame_handlers_grow :
  forall h c, (forall ev, handlers_of ev c ⊆ default [] (h !! ev)) ->
    P c -> P (with_event_handlers h c).
Hypothesis frame_handlers_init :
  forall c, P c -> P (exec _initialize_event_handlers c).
Hypothesis frame_retry :
  forall c, P c -> P (with_retries (_retries_since_last_connect c + 1) c).
Hypothesis frame_reset :
  resets = true -> forall c, P c -> P (with_retries (-1) c).

Lemma quiet_note (a : action) :
  match a with Slept _ | Drive _ => False | _ => True end ->
  preserves P (note a).
Proof.
  intros Ha c H. apply frame_note; [|exact H].
  destruct (loud a) eqn:E; [|reflexivity].
  apply loud_only in E. destruct a; contradiction.
Qed.

Lemma keeps_getitem (event : string) :
  preserves P (event_handlers_getitem event).
Proof.
  intros c H. unfold exec, event_handlers_getitem.
  destruct (_event_handlers c !! event) eqn:E; simpl; [exact H|].
  apply frame_handlers_grow; [|exact H].
  intros ev. unfold handlers_of.
  destruct (decide (event = ev)) as [->|Hne].
  - rewrite lookup_insert_eq, E. reflexivity.
  - rewrite lookup_insert_ne by exact Hne. reflexivity.
Qed.

Lemma keeps_schedule (cbs : list callback) (args : list pyval) :
  preserves P (schedule cbs args).
Proof.
  induction cbs as [|cb cbs IH]; simpl.
  - apply preserves_ret.
  - apply preserves_bind; [|intros _; exact IH].
    apply preserves_modify. intros c; apply frame_pending.
Qed.

Lemma keeps_async_event (event : string) (args : list pyval) :
  preserves P (async_event event args).
Proof.
  unfold async_event.
  apply preserves_bind; [apply quiet_note; exact I|intros _].
  apply preserves_bind; [apply keeps_getitem|intros cbs].
  apply keeps_schedule.
Qed.

Lemma exec_add_event_handler (event : string) (cb : callback)
    (c : GeBaseClient) :
  exec (add_event_handler event cb false) c =
  let c' := exec (event_handlers_getitem event) c in
  with_event_handlers
    (<[event := handlers_of event c ++ [cb]]> (_event_handlers c')) c'.
Proof.
  unfold add_event_handler. rewrite exec_bind, eval_getitem. reflexivity.
Qed.

Lemma keeps_add_event_handler (event : string) (cb : callback)
    (disposable : bool) :
  preserves P (add_event_handler event cb disposable).
Proof.
  destruct disposable; [apply preserves_ret|].
  intros c H. rewrite exec_add_event_handler. cbv zeta.
  apply frame_handlers_grow; [|apply keeps_getitem, H].
  intros ev. rewrite handlers_of_getitem. unfold handlers_of.
  destruct (decide (event = ev)) as [->|Hne].
  - rewrite lookup_insert_eq. simpl. intros x Hx. apply elem_of_app; left; exact Hx.
  - rewrite lookup_insert_ne by exact Hne.
    change (handlers_of ev c ⊆
            handlers_of ev (exec (event_handlers_getitem event) c)).
    rewrite handlers_of_getitem. reflexivity.
Qed.

Lemma keeps_remove_event_handler (event : string) (cb : callback) :
  preserves P (remove_event_handler event cb).
Proof.
  unfold remove_event_handler.
  apply preserves_bind; [apply keeps_getitem|intros l].
  rewrite list_remove_builtin_callable. apply quiet_note; exact I.
Qed.

Lemma keeps_set_state (new_state : GeClientState) :
  preserves P (_set_state new_state).
Proof.
  unfold _set_state. repeat preserve_step.
  - apply preserves_modify. intros c; apply frame_state.
  - apply keeps_async_event.
Qed.

Lemma keeps_on_state_change (old_state new_state : GeClientState) :
  preserves P (_on_state_change old_state new_state).
Proof.
  unfold _on_state_change. repeat preserve_step; apply keeps_async_event.
Qed.

Lemma keeps_disconnect : preserves P disconnect.
Proof.
  unfold disconnect, _disconnect. repeat preserve_step.
  - apply keeps_set_state.
  - apply preserves_modify. intros c; apply frame_requested.
  - apply preserves_modify. intros c; apply frame_connected.
  - apply quiet_note; exact I.
  - apply keeps_set_state.
Qed.

Lemma keeps_set_connected : resets = true -> preserves P _set_connected.
Proof.
  intros Hr. unfold _set_connected. repeat preserve_step.
  - apply preserves_modify. apply frame_reset, Hr.
  - apply keeps_set_state.
Qed.

Lemma keeps_set_appliance_availability (a : GeAppliance.t) (avail : bool) :
  preserves P (_set_appliance_availability a avail).
Proof.
  unfold _set_appliance_availability.
  repeat preserve_step; apply keeps_async_event.
Qed.

Lemma keeps_maybe_trigger_appliance_init_event (a : GeAppliance.t)
    (has_type : bool) :
  preserves P (_maybe_trigger_appliance_init_event a has_type).
Proof.
  unfold _maybe_trigger_appliance_init_event.
  repeat preserve_step; apply keeps_async_event.
Qed.

Lemma keeps_run_task (t : task) : preserves P (run_task t).
Proof.
  destruct t as [[|n] args]; simpl.
  - destruct args as [|[o|?] [|[n'|?] [|? ?]]];
      try apply preserves_ret.
    apply keeps_on_state_change.
  - apply quiet_note; exact I.
Qed.

Lemma keeps_run_tasks (ts : list task) : preserves P (run_tasks ts).
Proof.
  induction ts as [|t ts IH]; simpl.
  - apply preserves_ret.
  - apply preserves_bind; [apply keeps_run_task|intros _; exact IH].
Qed.

Lemma keeps_event_loop_pass : preserves P event_loop_pass.
Proof.
  unfold event_loop_pass. repeat preserve_step.
  - apply preserves_modify. intros c; apply frame_pending.
  - apply keeps_run_tasks.
Qed.

Lemma keeps_do_call (k : call) : call_ok resets k -> preserves P (do_call k).
Proof.
  intros Hk. destruct k; simpl; repeat preserve_step.
  - apply keeps_add_event_handler.
  - apply keeps_remove_event_handler.
  - exact frame_handlers_init.
  - apply keeps_set_state.
  - destruct Hk as [Hr|Hne]; [apply keeps_set_connected, Hr|congruence].
  - apply keeps_disconnect.
  - apply keeps_set_appliance_availability.
  - apply keeps_maybe_trigger_appliance_init_event.
  - apply keeps_event_loop_pass.
Qed.

Lemma keeps_do_calls (ks : list call) :
  Forall (call_ok resets) ks -> preserves P (do_calls ks).
Proof.
  induction 1 as [|k ks Hk _ IH]; simpl.
  - apply preserves_ret.
  - apply preserves_bind; [apply keeps_do_call, Hk|intros _; exact IH].
Qed.

Lemma keeps_refresh_login_flow (cy : cycle) :
  Forall (call_ok resets) (refresh_calls cy) ->
  preserves P (async_do_refresh_login_flow cy).
Proof.
  intros Hc. unfold async_do_refresh_login_flow. repeat preserve_step.
  - apply quiet_note; exact I.
  - apply keeps_do_calls, Hc.
Qed.

Lemma keeps_drive (cy : cycle) (c : GeBaseClient) :
  Forall (call_ok resets) (drive_calls cy) ->
  _retries_since_last_connect c <= MAX_RETRIES ->
  P c -> P (exec (_async_run_client cy) c).
Proof.
  intros Hc Hle H. unfold _async_run_client.
  rewrite exec_bind. change (exec (get _retries_since_last_connect) c) with c.
  change (eval (get _retries_since_last_connect) c)
    with (_retries_since_last_connect c).
  rewrite exec_bind.
  assert (Hk : preserves P (do_calls (drive_calls cy);; ret (drive_raises cy))).
  { repeat preserve_step. apply keeps_do_calls, Hc. }
  apply Hk. apply frame_drive; assumption.
Qed.

Lemma keeps_loop_body (cy : cycle) (c : GeBaseClient) :
  cycle_ok resets cy ->
  _retries_since_last_connect c <= MAX_RETRIES ->
  P c -> P (exec (loop_body cy) c).
Proof.
  intros [Hd Hr] Hle H. unfold loop_body, await.
  rewrite exec_bind.
  generalize (eval (_async_run_client cy) c); intros raised.
  generalize (keeps_drive cy c Hd Hle H).
  generalize (exec (_async_run_client cy) c). clear c Hle H.
  change (preserves P
    (after_try <- except_clause raised ;;
     _set_state DROPPED ;;
     requested <- get _disconnect_requested ;;
     refresh_failed <-
       (if negb requested then
          _set_state WAITING ;;
          never_awaited "asyncio.sleep(5)" (asyncio_sleep 5) ;;
          async_do_refresh_login_flow cy
        else ret false) ;;
     if refresh_failed then ret Break
     else
       modify (fun c => with_retries (_retries_since_last_connect c + 1) c) ;;
       ret after_try)).
  unfold except_clause.
  repeat preserve_step;
    try (apply quiet_note; exact I);
    try apply keeps_set_state;
    try (apply keeps_refresh_login_flow, Hr);
    try (apply preserves_modify; exact frame_retry).
Qed.

Lemma keeps_supervise (script : list cycle) (c : GeBaseClient) :
  Forall (cycle_ok resets) script -> P c -> P (exec (supervise MAX_RETRIES script) c).
Proof.
  intros Hs. revert c.
  induction Hs as [|cy script Hcy _ IH]; intros c H.
  - unfold exec, supervise, bind, get, ret.
    destruct (_disconnect_requested c); simpl; [exact H|].
    destruct (bool_decide _); exact H.
  - cbn [supervise]. rewrite exec_bind.
    change (exec (get _disconnect_requested) c) with c.
    change (eval (get _disconnect_requested) c) with (_disconnect_requested c).
    destruct (_disconnect_requested c); [exact H|].
    rewrite exec_bind.
    change (exec (get _retries_since_last_connect) c) with c.
    change (eval (get _retries_since_last_connect) c)
      with (_retries_since_last_connect c).
    destruct (bool_decide_reflect (_retries_since_last_connect c > MAX_RETRIES))
      as [Hgt|Hle]; [exact H|].
    rewrite exec_bind.
    assert (H' : P (exec (loop_body cy) c))
      by (apply keeps_loop_body; [exact Hcy|lia|exact H]).
    destruct (eval (loop_body cy) c); [apply IH, H'|exact H'].
Qed.

Lemma keeps_async_run_client (script : list cycle) (c : GeBaseClient) :
  Forall (cycle_ok resets) script ->
  P c -> P (exec (async_run_client MAX_RETRIES script) c).
Proof.
  intros Hs H. unfold async_run_client.
  rewrite exec_bind, exec_bind.
  set (c1 := exec (modify (with_disconnect_requested false)) c).
  assert (H1 : P c1) by (apply frame_requested, H).
  assert (H2 : P (exec (supervise MAX_RETRIES script) c1))
    by (apply keeps_supervise; assumption).
  destruct (eval (supervise MAX_RETRIES script) c1); [|exact H2].
  revert H2. generalize (exec (supervise MAX_RETRIES script) c1).
  change (preserves P
    (never_awaited "self.disconnect()" disconnect ;; ret Returned)).
  repeat preserve_step. apply quiet_note; exact I.
Qed.

End Frame.

(** ** What publishing an event changes *)

Lemma schedule_fields (cbs : list callback) (args : list pyval)
    (c : GeBaseClient) :
  let c' := exec (schedule cbs args) c in
  _state c' = _state c /\
  _connected c' = _connected c /\
  _disconnect_requested c' = _disconnect_requested c /\
  _retries_since_last_connect c' = _retries_since_last_connect c /\
  _event_handlers c' = _event_handlers c /\
  log c' = log c /\
  pending c' = pending c ++ map (fun cb => (cb, args)) cbs.
Proof.
  revert c. induction cbs as [|cb cbs IH]; intros c; cbn [schedule map].
  - cbv zeta. unfold exec, ret; simpl. rewrite app_nil_r. tauto.
  - cbv zeta. rewrite exec_bind.
    destruct (IH (exec (ensure_future (cb, args)) c))
      as (H1 & H2 & H3 & H4 & H5 & H6 & H7).
    rewrite H1, H2, H3, H4, H5, H6, H7. simpl.
    rewrite <- app_assoc. tauto.
Qed.

Lemma getitem_fields (event : string) (c : GeBaseClient) :
  let c' := exec (event_handlers_getitem event) c in
  _state c' = _state c /\
  _connected c' = _connected c /\
  _disconnect_requested c' = _disconnect_requested c /\
  _retries_since_last_connect c' = _retries_since_last_connect c /\
  log c' = log c /\
  pending c' = pending c.
Proof.
  unfold exec, event_handlers_getitem.
  destruct (_event_handlers c !! event); simpl; tauto.
Qed.

Lemma async_event_fields (event : string) (args : list pyval)
    (c : GeBaseClient) :
  let c' := exec (async_event event args) c in
  _state c' = _state c /\
  _connected c' = _connected c /\
  _disconnect_requested c' = _disconnect_requested c /\
  _retries_since_last_connect c' = _retries_since_last_connect c /\
  (forall event', handlers_of event' c' = handlers_of event' c) /\
  log c' = log c ++ [Published event args] /\
  pending c' = pending c ++ map (fun cb => (cb, args)) (handlers_of event c).
Proof.
  unfold async_event. cbv zeta. rewrite !exec_bind.
  set (c1 := exec (note (Published event args)) c).
  set (c2 := exec (event_handlers_getitem event) c1).
  rewrite eval_getitem.
  destruct (schedule_fields (handlers_of event c1) args c2)
    as (H1 & H2 & H3 & H4 & H5 & H6 & H7).
  destruct (getitem_fields event c1) as (G1 & G2 & G3 & G4 & G5 & G6).
  fold c2 in G1, G2, G3, G4, G5, G6.
  rewrite H1, H2, H3, H4, H6, H7, G1, G2, G3, G4, G5, G6.
  repeat split; try reflexivity.
  intros event'. unfold handlers_of at 1. rewrite H5.
  change (handlers_of event' c2 = handlers_of event' c).
  unfold c2. rewrite handlers_of_getitem. reflexivity.
Qed.

(** ** The state machine: [_set_state] *)

Lemma set_state_unchanged (c : GeBaseClient) :
  _set_state (_state c) c = (false, c).
Proof.
  unfold _set_state, bind, get.
  rewrite bool_decide_eq_false_2 by (intros H; apply H; reflexivity).
  reflexivity.
Qed.

Lemma set_state_changed (new_state : GeClientState) (c : GeBaseClient) :
  _state c <> new_state ->
  let c' := exec (_set_state new_state) c in
  eval (_set_state new_state) c = true /\
  _state c' = new_state /\
  _connected c' = _connected c /\
  _disconnect_requested c' = _disconnect_requested c /\
  _retries_since_last_connect c' = _retries_since_last_connect c /\
  (forall event, handlers_of event c' = handlers_of event c) /\
  log c' =
    log c ++ [Published EVENT_STATE_CHANGED [VState (_state c); VState new_state]] /\
  pending c' =
    pending c ++
    map (fun cb => (cb, [VState (_state c); VState new_state]))
      (handlers_of EVENT_STATE_CHANGED c).
Proof.
  intros Hne. unfold _set_state, await. cbv zeta.
  rewrite exec_bind, eval_bind.
  change (exec (get _state) c) with c. change (eval (get _state) c) with (_state c).
  rewrite bool_decide_eq_true_2 by exact Hne.
  rewrite !exec_bind, !eval_bind.
  set (c1 := exec (modify (with_state new_state)) c).
  destruct (async_event_fields EVENT_STATE_CHANGED
              [VState (_state c); VState new_state] c1)
    as (H1 & H2 & H3 & H4 & H5 & H6 & H7).
  rewrite !exec_ret, eval_ret, H1, H2, H3, H4, H6, H7.
  repeat split; try reflexivity.
  intros event. rewrite H5. reflexivity.
Qed.

Lemma last_cons_default {A : Type} (x d : A) (l : list A) :
  List.last (x :: l) d = List.last l x.
Proof.
  revert x d. induction l as [|y l IH]; intros x d; [reflexivity|].
  change (List.last (y :: l) d = List.last (y :: l) x).
  now rewrite (IH y d), (IH y x).
Qed.

(** C3. For every sequence of [_set_state] calls, the events published are
    exactly one [STATE_CHANGED] carrying (old, new) for each call whose
    argument differs from the state current at that call, and none for the
    others; the values returned report a change for exactly those calls; the
    final state is the last state asked for; and a call with the current
    state returns [False] and leaves the client as it was. *)
Theorem set_state_sequence_publishes_each_change :
  forall (news : list GeClientState) (c : GeBaseClient),
    log (exec (set_states news) c) = log c ++ spec_state_events (_state c) news /\
    eval (set_states news) c = spec_state_reports (_state c) news /\
    _state (exec (set_states news) c) = List.last news (_state c) /\
    _set_state (_state c) c = (false, c).
Proof.
  induction news as [|n news IH]; intros c.
  - cbn [set_states spec_state_events spec_state_reports].
    unfold exec, eval, ret; simpl. rewrite app_nil_r.
    repeat split; try reflexivity. apply set_state_unchanged.
  - cbn [set_states spec_state_events spec_state_reports]. unfold await.
    rewrite exec_bind, eval_bind, exec_bind, eval_bind, exec_ret, eval_ret.
    rewrite last_cons_default.
    destruct (decide (_state c = n)) as [<-|Hne].
    + assert (E1 : exec (_set_state (_state c)) c = c)
        by (unfold exec; now rewrite set_state_unchanged).
      assert (E2 : eval (_set_state (_state c)) c = false)
        by (unfold eval; now rewrite set_state_unchanged).
      destruct (IH c) as (I1 & I2 & I3 & I4).
      rewrite E1, E2, I1, I2, I3. repeat split; try reflexivity. exact I4.
    + destruct (set_state_changed n c Hne)
        as (S1 & S2 & _ & _ & _ & _ & S7 & _).
      destruct (IH (exec (_set_state n) c)) as (I1 & I2 & I3 & _).
      rewrite S1, I1, I2, I3, S2, S7, <- app_assoc.
      repeat split; try reflexivity.
      apply set_state_unchanged.
Qed.

(** ** The public properties [connected] and [available] *)

(** C10. [connected] is true exactly when the state is neither DISCONNECTING
    nor DISCONNECTED; a freshly constructed client is in state INITIALIZING,
    has made no drive or login call, and already reports [connected] true;
    [available] is true exactly in state CONNECTED, so it is false for the
    fresh client. *)
Theorem connected_unless_disconnecting_or_disconnected :
  (forall c : GeBaseClient,
     connected c = true <->
     _state c <> DISCONNECTING /\ _state c <> DISCONNECTED) /\
  (forall c : GeBaseClient, available c = true <-> _state c = CONNECTED) /\
  (forall username password : string,
     let c := __init__ username password in
     _state c = INITIALIZING /\ log c = [] /\
     _retries_since_last_connect c = -1 /\
     connected c = true /\ available c = false).
Proof.
  split; [|split].
  - intros c. unfold connected.
    destruct (_state c); vm_compute; split;
      try discriminate; try (intros [? ?]; congruence);
      try (intros _; split; discriminate); try reflexivity.
  - intros c. unfold available. rewrite bool_decide_eq_true. reflexivity.
  - intros username password. cbv zeta. repeat split; reflexivity.
Qed.

(** ** Appliance availability *)

Lemma set_appliance_availability_same (a : GeAppliance.t) (c : GeBaseClient) :
  _set_appliance_availability a (GeAppliance.available a) c = (a, c).
Proof.
  unfold _set_appliance_availability.
  destruct (GeAppliance.available a); reflexivity.
Qed.

Lemma exec_set_appliance_availability_same (a : GeAppliance.t)
    (c : GeBaseClient) :
  exec (_set_appliance_availability a (GeAppliance.available a)) c = c.
Proof. unfold exec. now rewrite set_appliance_availability_same. Qed.

Lemma eval_set_appliance_availability_same (a : GeAppliance.t)
    (c : GeBaseClient) :
  eval (_set_appliance_availability a (GeAppliance.available a)) c = a.
Proof. unfold eval. now rewrite set_appliance_availability_same. Qed.

Lemma set_appliance_availability_flip (a : GeAppliance.t) (v : bool)
    (c : GeBaseClient) :
  GeAppliance.available a = negb v ->
  let a' := eval (_set_appliance_availability a v) c in
  let c' := exec (_set_appliance_availability a v) c in
  GeAppliance.available a' = v /\
  GeAppliance.mac_addr a' = GeAppliance.mac_addr a /\
  GeAppliance.initialized a' = GeAppliance.initialized a /\
  log c' =
    log c ++
    [Published
       (if v then EVENT_APPLIANCE_AVAILABLE else EVENT_APPLIANCE_UNAVAILABLE)
       [VAppliance (GeAppliance.mac_addr a)]].
Proof.
  intros Hav. unfold _set_appliance_availability, await. rewrite Hav.
  destruct v; simpl negb; cbv iota zeta; simpl andb; cbv iota;
    rewrite exec_bind, eval_bind, exec_ret, eval_ret;
    match goal with
    | |- context [exec (async_event ?e ?args) c] =>
        destruct (async_event_fields e args c) as (_ & _ & _ & _ & _ & H6 & _)
    end;
    rewrite H6; repeat split; reflexivity.
Qed.

(** C9. For every appliance and every sequence of availability settings, the
    events published are exactly one [APPLIANCE_AVAILABLE] for each false to
    true flip and one [APPLIANCE_UNAVAILABLE] for each true to false flip, in
    order; the flag ends at the last value set; and setting the availability
    to its current value changes neither the appliance nor the client. *)
Theorem appliance_availability_events_follow_flips :
  forall (vs : list bool) (a : GeAppliance.t) (c : GeBaseClient),
    log (exec (set_availabilities a vs) c) =
      log c ++
      spec_availability_events (GeAppliance.mac_addr a)
        (GeAppliance.available a) vs /\
    GeAppliance.available (eval (set_availabilities a vs) c) =
      List.last vs (GeAppliance.available a) /\
    _set_appliance_availability a (GeAppliance.available a) c = (a, c).
Proof.
  induction vs as [|v vs IH]; intros a c.
  - cbn [set_availabilities spec_availability_events].
    rewrite exec_ret, eval_ret, app_nil_r.
    repeat split; try reflexivity. apply set_appliance_availability_same.
  - cbn [set_availabilities spec_availability_events]. unfold await.
    rewrite exec_bind, eval_bind, last_cons_default.
    split; [|split]; [| |apply set_appliance_availability_same].
    + destruct (Bool.bool_dec (GeAppliance.available a) v) as [E|E].
      * subst v. rewrite exec_set_appliance_availability_same,
          eval_set_appliance_availability_same.
        destruct (IH a c) as (I1 & _ & _). rewrite I1.
        destruct (GeAppliance.available a); reflexivity.
      * assert (Hav : GeAppliance.available a = negb v)
          by (destruct (GeAppliance.available a), v; simpl; congruence).
        destruct (set_appliance_availability_flip a v c Hav)
          as (F1 & F2 & _ & F4).
        destruct (IH (eval (_set_appliance_availability a v) c)
                     (exec (_set_appliance_availability a v) c)) as (I1 & _ & _).
        rewrite I1, F1, F2, F4, <- app_assoc, Hav.
        destruct v; reflexivity.
    + destruct (Bool.bool_dec (GeAppliance.available a) v) as [E|E].
      * subst v. rewrite exec_set_appliance_availability_same,
          eval_set_appliance_availability_same.
        destruct (IH a c) as (_ & I2 & _). exact I2.
      * assert (Hav : GeAppliance.available a = negb v)
          by (destruct (GeAppliance.available a), v; simpl; congruence).
        destruct (set_appliance_availability_flip a v c Hav)
          as (F1 & _ & _ & _).
        destruct (IH (eval (_set_appliance_availability a v) c)
                     (exec (_set_appliance_availability a v) c)) as (_ & I2 & _).
        rewrite I2, F1. reflexivity.
Qed.

(** ** The event bus: [remove_event_handler] *)

(** C7. [remove_event_handler] never removes the callback it is given: for
    every event name and callback, the handler lists of all events are what
    they were, a warning is logged, and nothing else changes.  In
    particular an observer that was registered for an event is still
    registered after it was removed. *)
Theorem remove_event_handler_removes_nothing :
  (forall (event : string) (cb : callback) (c : GeBaseClient),
     let c' := exec (remove_event_handler event cb) c in
     (forall event', handlers_of event' c' = handlers_of event' c) /\
     log c' = log c ++ [Warned "could not remove event handler"] /\
     pending c' = pending c /\ _state c' = _state c) /\
  (let c :=
     exec (add_event_handler EVENT_CONNECTED (cb_observer 7) false)
       (__init__ "user" "secret") in
   handlers_of EVENT_CONNECTED c = [cb_observer 7] /\
   handlers_of EVENT_CONNECTED
     (exec (remove_event_handler EVENT_CONNECTED (cb_observer 7)) c) =
   [cb_observer 7]).
Proof.
  split.
  - intros event cb c. cbv zeta. unfold remove_event_handler.
    rewrite exec_bind, list_remove_builtin_callable, exec_note.
    destruct (getitem_fields event c) as (G1 & _ & _ & _ & G5 & G6).
    cbn [log pending _state with_log]. rewrite G1, G5, G6.
    repeat split; try reflexivity.
    intros event'. rewrite <- (handlers_of_getitem event event' c).
    reflexivity.
  - vm_compute. split; reflexivity.
Qed.

(** ** [disconnect] *)





(** ** Clients that can arise *)

Lemma initialize_event_handlers_fields (c : GeBaseClient) :
  let c' := exec _initialize_event_handlers c in
  _state c' = _state c /\
  _connected c' = _connected c /\
  _disconnect_requested c' = _disconnect_requested c /\
  _retries_since_last_connect c' = _retries_since_last_connect c /\
  log c' = log c /\
  pending c' = pending c /\
  handlers_of EVENT_STATE_CHANGED c' = [cb_on_state_change].
Proof.
  unfold _initialize_event_handlers. cbv zeta.
  rewrite !exec_bind, exec_ret, exec_modify, exec_add_event_handler.
  cbv zeta.
  destruct (getitem_fields EVENT_STATE_CHANGED (with_event_handlers ∅ c))
    as (G1 & G2 & G3 & G4 & G5 & G6).
  cbn [_state _connected _disconnect_requested _retries_since_last_connect
       log pending with_event_handlers].
  rewrite G1, G2, G3, G4, G5, G6.
  repeat split; reflexivity.
Qed.

Lemma call_ok_resets (k : call) : call_ok true k.
Proof. left; reflexivity. Qed.

Lemma cycles_ok_resets (script : list cycle) :
  Forall (cycle_ok true) script.
Proof.
  apply Forall_forall. intros cy _.
  split; apply Forall_forall; intros k _; apply call_ok_resets.
Qed.

Ltac listener_leaf :=
  first
    [ intros a Ha; discriminate Ha
    | intros h0 c0 Hsub H; unfold listener_registered, handlers_of;
      cbn [_event_handlers with_event_handlers]; apply Hsub; exact H
    | intros c0 _; unfold listener_registered;
      destruct (initialize_event_handlers_fields c0)
        as (_ & _ & _ & _ & _ & _ & ->); apply list_elem_of_here
    | intros ? ? ? ? H; exact H
    | intros ? ? ? H; exact H
    | intros ? ? H; exact H
    | intros ? H; exact H
    | intros ? H ?; exact H ].

Lemma listener_survives_call (k : call) :
  preserves listener_registered (do_call k).
Proof.
  apply (keeps_do_call listener_registered no_loud true);
    try listener_leaf; apply call_ok_resets.
Qed.

Lemma listener_survives_run (max_retries : Z) (script : list cycle)
    (c : GeBaseClient) :
  listener_registered c ->
  listener_registered (exec (async_run_client max_retries script) c).
Proof.
  apply (keeps_async_run_client max_retries listener_registered no_loud true);
    try listener_leaf; apply cycles_ok_resets.
Qed.

Lemma reachable_listener_registered (c : GeBaseClient) :
  reachable c -> listener_registered c.
Proof.
  induction 1 as [u p|k c _ IH|m script c _ IH].
  - unfold listener_registered, __init__.
    destruct (initialize_event_handlers_fields
                (mkClient u p INITIALIZING false false (-1) ∅ [] []))
      as (_ & _ & _ & _ & _ & _ & ->).
    apply list_elem_of_here.
  - apply listener_survives_call, IH.
  - apply listener_survives_run, IH.
Qed.

Ltac log_extends_leaf :=
  first
    [ intros a Ha; discriminate Ha
    | intros a0 c0 _ [l H]; exists (l ++ [a0]); cbn [log with_log];
      rewrite H, app_assoc; reflexivity
    | intros c0 [l H] _;
      exists (l ++ [Drive (_retries_since_last_connect c0)]);
      cbn [log with_log]; rewrite H, app_assoc; reflexivity
    | intros c0 [l H]; exists l;
      destruct (initialize_event_handlers_fields c0)
        as (_ & _ & _ & _ & -> & _); exact H
    | intros ? ? ? ? H; exact H
    | intros ? ? ? H; exact H
    | intros ? ? H; exact H
    | intros ? H; exact H ].

Lemma run_tasks_log_extends (ts : list task) (c : GeBaseClient) :
  exists l, log (exec (run_tasks ts) c) = log c ++ l.
Proof.
  apply (keeps_run_tasks (log_extends (log c)) no_loud);
    try log_extends_leaf.
  exists []. now rewrite app_nil_r.
Qed.

Lemma run_task_log_extends (t : task) (c : GeBaseClient) :
  exists l, log (exec (run_task t) c) = log c ++ l.
Proof.
  apply (keeps_run_task (log_extends (log c)) no_loud);
    try log_extends_leaf.
  exists []. now rewrite app_nil_r.
Qed.

(** ** The internal listener *)

Lemma on_state_change_log (old_state new_state : GeClientState)
    (c : GeBaseClient) :
  log (exec (_on_state_change old_state new_state) c) =
  log c ++
  match lifecycle_event new_state with
  | Some event => [Published event []]
  | None => []
  end.
Proof.
  unfold _on_state_change, await. rewrite exec_bind.
  destruct new_state; cbn [lifecycle_event];
    repeat (rewrite bool_decide_eq_false_2 by discriminate);
    repeat (rewrite bool_decide_eq_true_2 by reflexivity);
    rewrite ?exec_ret, ?app_nil_r; try reflexivity.
  - destruct (async_event_fields EVENT_CONNECTED [] c)
      as (_ & _ & _ & _ & _ & H6 & _). exact H6.
  - destruct (async_event_fields EVENT_DISCONNECTED [] c)
      as (_ & _ & _ & _ & _ & H6 & _). exact H6.
Qed.

Lemma run_tasks_runs_listener (ts : list task) (old_state new_state : GeClientState)
    (event : string) (c : GeBaseClient) :
  (cb_on_state_change, [VState old_state; VState new_state]) ∈ ts ->
  lifecycle_event new_state = Some event ->
  exists l1 l2,
    log (exec (run_tasks ts) c) = log c ++ l1 ++ [Published event []] ++ l2.
Proof.
  intros Hin Hev. revert c.
  induction ts as [|t ts IH]; intros c; [inversion Hin|].
  cbn [run_tasks]. rewrite exec_bind.
  apply elem_of_cons in Hin as [<-|Hin].
  - destruct (run_tasks_log_extends ts
                (exec (run_task
                   (cb_on_state_change, [VState old_state; VState new_state])) c))
      as [l2 H2].
    exists [], l2. rewrite H2. cbn [run_task].
    rewrite on_state_change_log, Hev, <- app_assoc. reflexivity.
  - destruct (run_task_log_extends t c) as [l H].
    destruct (IH Hin (exec (run_task t) c)) as (l1 & l2 & H12).
    exists (l ++ l1), l2. rewrite H12, H, <- !app_assoc. reflexivity.
Qed.

(** C4. In every client that the constructor and the methods can produce,
    a transition into CONNECTED (into DISCONNECTED) publishes
    [STATE_CHANGED] with the old and the new state and schedules the internal
    listener with that pair; when the event loop next runs its ready futures
    the listener publishes [CONNECTED] ([DISCONNECTED]). *)
Theorem entering_connected_or_disconnected_publishes_both :
  forall (c : GeBaseClient) (new_state : GeClientState) (event : string),
    reachable c ->
    lifecycle_event new_state = Some event ->
    _state c <> new_state ->
    let c1 := exec (_set_state new_state) c in
    let c2 := exec event_loop_pass c1 in
    _state c1 = new_state /\
    log c1 =
      log c ++
      [Published EVENT_STATE_CHANGED [VState (_state c); VState new_state]] /\
    (cb_on_state_change, [VState (_state c); VState new_state]) ∈ pending c1 /\
    exists l1 l2, log c2 = log c1 ++ l1 ++ [Published event []] ++ l2.
Proof.
  intros c new_state event Hreach Hev Hne. cbv zeta.
  destruct (set_state_changed new_state c Hne)
    as (_ & S2 & _ & _ & _ & _ & S7 & S8).
  assert (Hin : (cb_on_state_change, [VState (_state c); VState new_state])
                ∈ pending (exec (_set_state new_state) c)).
  { rewrite S8. apply elem_of_app. right.
    apply (list_elem_of_fmap_2
             (fun cb => (cb, [VState (_state c); VState new_state]))).
    apply reachable_listener_registered, Hreach. }
  repeat split; [exact S2|exact S7|exact Hin|].
  unfold event_loop_pass. rewrite !exec_bind, exec_get, eval_get, exec_modify.
  destruct (run_tasks_runs_listener _ _ _ event
              (with_pending [] (exec (_set_state new_state) c)) Hin Hev)
    as (l1 & l2 & H).
  exists l1, l2. exact H.
Qed.

Lemma entering_connected_or_disconnected_publishes_both_witness :
  let c := __init__ "user" "secret" in
  let c2 := exec event_loop_pass (exec (_set_state CONNECTED) c) in
  _state (exec (_set_state CONNECTED) c) = CONNECTED /\
  exists l1 l2,
    log c2 =
    log (exec (_set_state CONNECTED) c) ++
    l1 ++ [Published EVENT_CONNECTED []] ++ l2.
Proof.
  assert (Hne : _state (__init__ "user" "secret") <> CONNECTED)
    by (vm_compute; discriminate).
  destruct (entering_connected_or_disconnected_publishes_both
              (__init__ "user" "secret") CONNECTED EVENT_CONNECTED
              (reachable_init "user" "secret") eq_refl Hne)
    as (H1 & _ & _ & H4).
  cbv zeta. split; [exact H1 | exact H4].
Defined.

(** ** The retry counter *)

Lemma calls_ok_without_set_connected (ks : list call) :
  call_set_connected ∉ ks -> Forall (call_ok false) ks.
Proof.
  intros Hnot. apply Forall_forall. intros k Hk. right.
  intros ->. apply Hnot, Hk.
Qed.

Lemma cycles_ok_never_confirm (script : list cycle) :
  Forall never_confirms script -> Forall (cycle_ok false) script.
Proof.
  intros Hs. eapply Forall_impl; [exact Hs|]. intros cy [Hd Hr].
  split; apply calls_ok_without_set_connected; assumption.
Qed.

Ltac retries_leaf :=
  cbv beta;
  first
    [ intros a0 Ha; discriminate Ha
    | intros Hf; discriminate Hf
    | intros c0 H;
      destruct (initialize_event_handlers_fields c0)
        as (_ & _ & _ & -> & _); exact H
    | intros c0 H; cbn [_retries_since_last_connect with_retries]; lia
    | intros ? ? ? ? H; exact H
    | intros ? ? ? H; exact H
    | intros ? ? H; exact H
    | intros ? H ?; exact H ].

Lemma call_keeps_retries (k : call) (c : GeBaseClient) :
  k <> call_set_connected ->
  _retries_since_last_connect (exec (do_call k) c) =
  _retries_since_last_connect c.
Proof.
  intros Hk.
  apply (keeps_do_call
           (fun c' => _retries_since_last_connect c' =
                      _retries_since_last_connect c) no_loud false);
    try retries_leaf; [right; exact Hk | reflexivity].
Qed.

Lemma run_never_lowers_retries (max_retries : Z) (script : list cycle)
    (c : GeBaseClient) :
  Forall never_confirms script ->
  _retries_since_last_connect c <=
  _retries_since_last_connect (exec (async_run_client max_retries script) c).
Proof.
  intros Hs.
  apply (keeps_async_run_client max_retries
           (fun c' => _retries_since_last_connect c <=
                      _retries_since_last_connect c') no_loud false);
    try retries_leaf; [apply cycles_ok_never_confirm, Hs | cbv beta; lia].
Qed.

Lemma set_connected_fields (c : GeBaseClient) :
  _retries_since_last_connect (exec _set_connected c) = -1 /\
  _state (exec _set_connected c) = CONNECTED.
Proof.
  unfold _set_connected, await.
  rewrite !exec_bind, exec_ret, exec_modify.
  set (c1 := with_retries (-1) c).
  destruct (decide (_state c1 = CONNECTED)) as [E|Hne].
  - assert (Hx : exec (_set_state CONNECTED) c1 = c1).
    { rewrite <- E at 1. unfold exec. now rewrite set_state_unchanged. }
    rewrite Hx. split; [reflexivity | exact E].
  - destruct (set_state_changed CONNECTED c1 Hne)
      as (_ & S2 & _ & _ & S5 & _).
    rewrite S2, S5. split; reflexivity.
Qed.

(** C8. [_set_connected] puts the retry counter at -1 and the state at
    CONNECTED.  Every other call a collaborator can make leaves the counter
    as it is, and a run of the supervisor in which no collaborator calls
    [_set_connected] never lowers it: the supervisor itself only adds one per
    turn of its loop, whatever the drive and refresh hooks attempted. *)
Theorem only_set_connected_resets_retries :
  (forall c : GeBaseClient,
     _retries_since_last_connect (exec _set_connected c) = -1 /\
     _state (exec _set_connected c) = CONNECTED) /\
  (forall (k : call) (c : GeBaseClient),
     k <> call_set_connected ->
     _retries_since_last_connect (exec (do_call k) c) =
     _retries_since_last_connect c) /\
  (forall (max_retries : Z) (script : list cycle) (c : GeBaseClient),
     Forall never_confirms script ->
     _retries_since_last_connect c <=
     _retries_since_last_connect
       (exec (async_run_client max_retries script) c)).
Proof.
  split; [exact set_connected_fields|].
  split; [exact call_keeps_retries | exact run_never_lowers_retries].
Qed.

Lemma only_set_connected_resets_retries_witness :
  let c := exec (do_call call_set_connected) (__init__ "user" "secret") in
  let attempt := mkCycle [call_set_state AUTHORIZING_OAUTH] false [] false in
  _retries_since_last_connect (exec (do_call call_disconnect) c) =
    _retries_since_last_connect c /\
  _retries_since_last_connect c <=
    _retries_since_last_connect (exec (async_run_client 3 [attempt; attempt]) c).
Proof.
  destruct only_set_connected_resets_retries as (_ & Hcall & Hrun).
  cbv zeta. split.
  - apply Hcall. discriminate.
  - apply Hrun. repeat constructor; cbn;
      (intros H; apply elem_of_cons in H as [H|H];
       [discriminate H | inversion H]) || (intros H; inversion H).
Defined.

(** ** One turn of the supervisor's loop *)

Ltac no_sleep_leaf :=
  cbv beta;
  first
    [ intros a0 Ha; destruct a0; (discriminate Ha || exact I)
    | intros a0 c0 Ha H; cbn [log with_log];
      rewrite List.filter_app, H; cbn [List.filter]; rewrite Ha;
      apply app_nil_r
    | intros c0 H _; cbn [log with_log];
      rewrite List.filter_app, H; cbn [List.filter is_slept];
      apply app_nil_r
    | intros c0 H;
      destruct (initialize_event_handlers_fields c0)
        as (_ & _ & _ & _ & -> & _); exact H
    | intros ? ? ? ? H; exact H
    | intros ? ? ? H; exact H
    | intros ? ? H; exact H
    | intros ? H; exact H ].

Lemma run_adds_no_sleep (max_retries : Z) (script : list cycle)
    (c : GeBaseClient) :
  List.filter is_slept (log (exec (async_run_client max_retries script) c)) =
  List.filter is_slept (log c).
Proof.
  apply (keeps_async_run_client max_retries
           (fun c' => List.filter is_slept (log c') =
                      List.filter is_slept (log c)) is_slept true);
    try no_sleep_leaf; [apply cycles_ok_resets | reflexivity].
Qed.

Lemma loop_body_adds_no_sleep (cy : cycle) (c : GeBaseClient) :
  List.filter is_slept (log (exec (loop_body cy) c)) =
  List.filter is_slept (log c).
Proof.
  apply (keeps_loop_body (_retries_since_last_connect c)
           (fun c' => List.filter is_slept (log c') =
                      List.filter is_slept (log c)) is_slept true);
    try no_sleep_leaf; try reflexivity.
  split; apply Forall_forall; intros k _; apply call_ok_resets.
Qed.

Lemma do_calls_log_extends (ks : list call) (c : GeBaseClient) :
  exists l, log (exec (do_calls ks) c) = log c ++ l.
Proof.
  apply (keeps_do_calls (log_extends (log c)) no_loud true);
    try log_extends_leaf.
  - apply Forall_forall. intros k _. apply call_ok_resets.
  - exists []. now rewrite app_nil_r.
Qed.

Lemma set_state_any (new_state : GeClientState) (c : GeBaseClient) :
  let c' := exec (_set_state new_state) c in
  _state c' = new_state /\
  _disconnect_requested c' = _disconnect_requested c /\
  _retries_since_last_connect c' = _retries_since_last_connect c /\
  exists l, log c' = log c ++ l.
Proof.
  cbv zeta. destruct (decide (_state c = new_state)) as [E|Hne].
  - assert (Hx : exec (_set_state new_state) c = c).
    { rewrite <- E. unfold exec. now rewrite set_state_unchanged. }
    rewrite Hx. repeat split; [exact E|]. exists []. now rewrite app_nil_r.
  - destruct (set_state_changed new_state c Hne)
      as (_ & S2 & _ & S4 & S5 & _ & S7 & _).
    repeat split; [exact S2|exact S4|exact S5|]. eexists. exact S7.
Qed.

Lemma refresh_login_flow_fields (cy : cycle) (c : GeBaseClient) :
  eval (async_do_refresh_login_flow cy) c = refresh_raises cy /\
  exists l,
    log (exec (async_do_refresh_login_flow cy) c) =
    log c ++ [RefreshLogin] ++ l.
Proof.
  unfold async_do_refresh_login_flow.
  rewrite !eval_bind, eval_ret, !exec_bind, exec_ret, exec_note. split;
    [reflexivity|].
  destruct (do_calls_log_extends (refresh_calls cy)
              (with_log (log c ++ [RefreshLogin]) c)) as [l H].
  exists l. rewrite H. cbn [log with_log]. now rewrite <- app_assoc.
Qed.

Lemma drive_fields (cy : cycle) (c : GeBaseClient) :
  eval (_async_run_client cy) c = drive_raises cy /\
  exists l,
    log (exec (_async_run_client cy) c) =
    log c ++ [Drive (_retries_since_last_connect c)] ++ l.
Proof.
  unfold _async_run_client.
  rewrite !eval_bind, eval_ret, !exec_bind, exec_ret, exec_get, eval_get,
    exec_note.
  split; [reflexivity|].
  destruct (do_calls_log_extends (drive_calls cy)
              (with_log (log c ++ [Drive (_retries_since_last_connect c)]) c))
    as [l H].
  exists l. rewrite H. cbn [log with_log]. now rewrite <- app_assoc.
Qed.

Lemma except_clause_fields (raised : bool) (c : GeBaseClient) :
  let c' := exec (except_clause raised) c in
  _disconnect_requested c' = _disconnect_requested c /\
  _retries_since_last_connect c' = _retries_since_last_connect c /\
  exists l, log c' = log c ++ l.
Proof.
  cbv zeta. unfold except_clause. destruct raised.
  - rewrite exec_bind, exec_get, eval_get.
    destruct (bool_decide _).
    + rewrite exec_bind, exec_ret, exec_note. cbn.
      repeat split. eexists; reflexivity.
    + rewrite exec_ret. repeat split. exists []. now rewrite app_nil_r.
  - rewrite exec_ret. repeat split. exists []. now rewrite app_nil_r.
Qed.

(** C6, what the code does.  In a turn of the loop in which the drive call
    has ended without disconnect having been requested, the supervisor goes
    to WAITING and then straight to the refresh login: between the two the
    log holds only the [asyncio.sleep(5)] coroutine that was created and
    never awaited, and the turn adds no [Slept] entry at all.  If the refresh
    login raises, the loop is left and the retry counter is not
    incremented. *)
Theorem loop_body_backoff_is_never_awaited :
  forall (cy : cycle) (c : GeBaseClient),
    _disconnect_requested (exec (_async_run_client cy) c) = false ->
    let c' := exec (loop_body cy) c in
    (exists l0 l,
       log c' =
       log c ++ l0 ++
       [Published EVENT_STATE_CHANGED [VState DROPPED; VState WAITING];
        NeverAwaited "asyncio.sleep(5)";
        RefreshLogin] ++ l) /\
    List.filter is_slept (log c') = List.filter is_slept (log c) /\
    (refresh_raises cy = true -> eval (loop_body cy) c = Break).
Proof.
  intros cy c Hreq. cbv zeta.
  split; [|split; [apply loop_body_adds_no_sleep|]].
  - unfold loop_body, await. rewrite exec_bind.
    destruct (drive_fields cy c) as (_ & ld & Hld).
    set (c1 := exec (_async_run_client cy) c) in *.
    generalize (eval (_async_run_client cy) c). intros raised.
    change (exists l0 l,
      log (exec
        (after_try <- except_clause raised ;;
         _set_state DROPPED ;;
         requested <- get _disconnect_requested ;;
         refresh_failed <-
           (if negb requested then
              _set_state WAITING ;;
              never_awaited "asyncio.sleep(5)" (asyncio_sleep 5) ;;
              async_do_refresh_login_flow cy
            else ret false) ;;
         if refresh_failed then ret Break
         else
           modify (fun c => with_retries (_retries_since_last_connect c + 1) c) ;;
           ret after_try) c1) =
      log c ++ l0 ++
      [Published EVENT_STATE_CHANGED [VState DROPPED; VState WAITING];
       NeverAwaited "asyncio.sleep(5)"; RefreshLogin] ++ l).
    rewrite exec_bind.
    destruct (except_clause_fields raised c1) as (E1 & _ & le & Hle).
    set (c1' := exec (except_clause raised) c1) in *.
    generalize (eval (except_clause raised) c1). intros after_try.
    rewrite exec_bind.
    destruct (set_state_any DROPPED c1') as (D1 & D2 & _ & ldr & Hldr).
    set (c2 := exec (_set_state DROPPED) c1') in *.
    rewrite exec_bind, exec_get, eval_get.
    assert (Hreq2 : _disconnect_requested c2 = false)
      by (rewrite D2, E1; exact Hreq).
    rewrite Hreq2. cbn [negb]. rewrite exec_bind.
    assert (Hw : _state c2 <> WAITING) by (rewrite D1; discriminate).
    destruct (set_state_changed WAITING c2 Hw)
      as (_ & _ & _ & _ & _ & _ & W7 & _).
    rewrite D1 in W7.
    set (refresh :=
           _set_state WAITING ;;
           never_awaited "asyncio.sleep(5)" (asyncio_sleep 5) ;;
           async_do_refresh_login_flow cy).
    assert (Hlog : exists l,
      log (exec refresh c2) =
      log c2 ++
      [Published EVENT_STATE_CHANGED [VState DROPPED; VState WAITING];
       NeverAwaited "asyncio.sleep(5)"; RefreshLogin] ++ l).
    { unfold refresh, never_awaited. rewrite !exec_bind, exec_note.
      set (c3 := exec (_set_state WAITING) c2) in *.
      destruct (refresh_login_flow_fields cy
                  (with_log (log c3 ++ [NeverAwaited "asyncio.sleep(5)"]) c3))
        as (_ & l & Hl).
      exists l. rewrite Hl. cbn [log with_log]. rewrite W7, <- !app_assoc.
      reflexivity. }
    destruct Hlog as [l Hl].
    exists (Drive (_retries_since_last_connect c) :: ld ++ le ++ ldr), l.
    assert (Hfin : log (exec refresh c2) =
      log c ++
      (Drive (_retries_since_last_connect c) :: ld ++ le ++ ldr) ++
      [Published EVENT_STATE_CHANGED [VState DROPPED; VState WAITING];
       NeverAwaited "asyncio.sleep(5)"; RefreshLogin] ++ l).
    { rewrite Hl, Hldr, Hle, Hld. cbn [app]. rewrite <- !app_assoc.
      reflexivity. }
    destruct (eval refresh c2).
    + rewrite exec_ret. exact Hfin.
    + rewrite exec_bind, exec_ret, exec_modify. cbn [log with_retries].
      exact Hfin.
  - intros Hraise. unfold loop_body, await. rewrite eval_bind.
    generalize (eval (_async_run_client cy) c). intros raised.
    set (c1 := exec (_async_run_client cy) c) in *.
    change (eval
        (after_try <- except_clause raised ;;
         _set_state DROPPED ;;
         requested <- get _disconnect_requested ;;
         refresh_failed <-
           (if negb requested then
              _set_state WAITING ;;
              never_awaited "asyncio.sleep(5)" (asyncio_sleep 5) ;;
              async_do_refresh_login_flow cy
            else ret false) ;;
         if refresh_failed then ret Break
         else
           modify (fun c => with_retries (_retries_since_last_connect c + 1) c) ;;
           ret after_try) c1 = Break).
    rewrite eval_bind.
    destruct (except_clause_fields raised c1) as (E1 & _ & _).
    set (c1' := exec (except_clause raised) c1) in *.
    generalize (eval (except_clause raised) c1). intros after_try.
    rewrite eval_bind.
    destruct (set_state_any DROPPED c1') as (_ & D2 & _).
    set (c2 := exec (_set_state DROPPED) c1') in *.
    rewrite eval_bind, exec_get, eval_get.
    assert (Hreq2 : _disconnect_requested c2 = false)
      by (rewrite D2, E1; exact Hreq).
    rewrite Hreq2. cbn [negb]. rewrite eval_bind.
    unfold never_awaited at 1. rewrite !eval_bind.
    destruct (refresh_login_flow_fields cy
                (exec (note (NeverAwaited "asyncio.sleep(5)"))
                   (exec (_set_state WAITING) c2))) as (R1 & _).
    rewrite R1, Hraise. reflexivity.
Qed.

Lemma loop_body_backoff_is_never_awaited_witness :
  let cy := mkCycle [] false [] true in
  let c := __init__ "user" "secret" in
  List.filter is_slept (log (exec (loop_body cy) c)) = [] /\
  eval (loop_body cy) c = Break.
Proof.
  destruct (loop_body_backoff_is_never_awaited
              (mkCycle [] false [] true) (__init__ "user" "secret") eq_refl)
    as (_ & H2 & H3).
  cbv zeta. split; [exact H2 | exact (H3 eq_refl)].
Defined.

(** ** The supervisor's loop *)

Lemma supervise_over_max (max_retries : Z) (script : list cycle)
    (c : GeBaseClient) :
  _disconnect_requested c = false ->
  _retries_since_last_connect c > max_retries ->
  supervise max_retries script c = (Returned, c).
Proof.
  intros Hreq Hgt.
  destruct script; cbn [supervise]; unfold bind, get; rewrite Hreq;
    rewrite bool_decide_eq_true_2 by exact Hgt; reflexivity.
Qed.

Lemma supervise_cons (max_retries : Z) (cy : cycle) (rest : list cycle)
    (c : GeBaseClient) :
  _disconnect_requested c = false ->
  _retries_since_last_connect c <= max_retries ->
  supervise max_retries (cy :: rest) c =
  match eval (loop_body cy) c with
  | Break => (Returned, exec (loop_body cy) c)
  | Continue => supervise max_retries rest (exec (loop_body cy) c)
  end.
Proof.
  intros Hreq Hle. cbn [supervise]. unfold bind at 1, get at 1. rewrite Hreq.
  unfold bind at 1, get at 1.
  rewrite bool_decide_eq_false_2 by lia.
  unfold bind at 1. rewrite (run_eta (loop_body cy) c).
  destruct (eval (loop_body cy) c); reflexivity.
Qed.

Lemma run_drives_within_max (max_retries : Z) (script : list cycle)
    (c : GeBaseClient) (r : Z) :
  Drive r ∈ log (exec (async_run_client max_retries script) c) ->
  Drive r ∈ log c \/ r <= max_retries.
Proof.
  revert r.
  apply (keeps_async_run_client max_retries
           (fun c' => forall r, Drive r ∈ log c' ->
                        Drive r ∈ log c \/ r <= max_retries) is_drive true);
    cbv beta.
  - intros a0 Ha; destruct a0; (discriminate Ha || exact I).
  - intros ? ? H; exact H.
  - intros ? ? H; exact H.
  - intros ? ? H; exact H.
  - intros ? ? H; exact H.
  - intros a0 c0 Ha H r Hin. cbn [log with_log] in Hin.
    apply elem_of_app in Hin as [Hin|Hin]; [apply H, Hin|].
    apply list_elem_of_singleton in Hin. subst a0. discriminate Ha.
  - intros c0 H Hle r Hin. cbn [log with_log] in Hin.
    apply elem_of_app in Hin as [Hin|Hin]; [apply H, Hin|].
    apply list_elem_of_singleton in Hin. injection Hin as ->. right; exact Hle.
  - intros ? ? ? H; exact H.
  - intros c0 H.
    destruct (initialize_event_handlers_fields c0)
      as (_ & _ & _ & _ & -> & _); exact H.
  - intros ? H; exact H.
  - intros ? ? H; exact H.
  - apply cycles_ok_resets.
  - intros r Hin; left; exact Hin.
Qed.

(** C2, what the code does.  When the retry counter exceeds the maximum at
    the head of the loop the loop ends at once, with no drive call and no
    refresh login; no drive call is ever made with a counter above the
    maximum.  The call [self.disconnect()] that follows the loop is made
    once but never awaited: the log gains only the dropped coroutine, the
    teardown hook is not called and the state stays what it was.  The last
    part runs a client through two turns with a maximum of 0: it ends in
    WAITING, not in DISCONNECTED. *)
Theorem retries_over_max_end_the_loop :
  forall (max_retries : Z) (script : list cycle) (c : GeBaseClient),
    (_disconnect_requested c = false ->
     _retries_since_last_connect c > max_retries ->
     supervise max_retries script c = (Returned, c)) /\
    (_retries_since_last_connect c > max_retries ->
     let c' := exec (async_run_client max_retries script) c in
     eval (async_run_client max_retries script) c = Returned /\
     log c' = log c ++ [NeverAwaited "self.disconnect()"] /\
     _state c' = _state c /\
     _disconnect_requested c' = false) /\
    (forall r : Z,
       Drive r ∈ log (exec (async_run_client max_retries script) c) ->
       Drive r ∈ log c \/ r <= max_retries) /\
    (let turn := mkCycle [] false [] false in
     let c' :=
       exec (async_run_client 0 [turn; turn; turn]) (__init__ "user" "secret") in
     _retries_since_last_connect c' = 1 /\
     _state c' = WAITING /\
     _disconnect_requested c' = false /\
     count_occ action_eq_dec (log c') (NeverAwaited "self.disconnect()") = 1%nat /\
     count_occ action_eq_dec (log c') Teardown = 0%nat /\
     List.filter is_drive (log c') = [Drive (-1); Drive 0]).
Proof.
  intros max_retries script c.
  split; [apply supervise_over_max|].
  split; [|split; [apply run_drives_within_max|]].
  - intros Hgt. cbv zeta. unfold async_run_client, never_awaited.
    rewrite eval_bind, exec_bind, exec_modify, eval_bind, exec_bind.
    assert (Hs : supervise max_retries script
                   (with_disconnect_requested false c) =
                 (Returned, with_disconnect_requested false c))
      by (apply supervise_over_max; [reflexivity | exact Hgt]).
    assert (E1 : eval (supervise max_retries script)
                   (with_disconnect_requested false c) = Returned)
      by (unfold eval; now rewrite Hs).
    assert (E2 : exec (supervise max_retries script)
                   (with_disconnect_requested false c) =
                 with_disconnect_requested false c)
      by (unfold exec; now rewrite Hs).
    rewrite E1, E2, eval_bind, exec_bind, eval_ret, exec_ret, exec_note.
    repeat split; reflexivity.
  - vm_compute. repeat split; reflexivity.
Qed.

Lemma retries_over_max_end_the_loop_witness :
  let c := with_retries 4 (__init__ "user" "secret") in
  let turn := mkCycle [] false [] false in
  supervise 3 [turn] c = (Returned, c) /\
  log (exec (async_run_client 3 [turn]) c) =
    log c ++ [NeverAwaited "self.disconnect()"] /\
  (forall r : Z,
     Drive r ∈ log (exec (async_run_client 3 [turn]) c) -> r <= 3).
Proof.
  cbv zeta.
  destruct (retries_over_max_end_the_loop 3 [mkCycle [] false [] false]
              (with_retries 4 (__init__ "user" "secret")))
    as (H1 & H2 & H3 & _).
  split; [apply H1; [reflexivity | reflexivity]|].
  split.
  - destruct H2 as (_ & H & _); [reflexivity | exact H].
  - intros r Hr. destruct (H3 r Hr) as [Hin|Hle]; [|exact Hle].
    vm_compute in Hin. inversion Hin.
Defined.

(** C1, what the code does.  The first drive call of a freshly constructed
    client raises while the retry counter is -1.  The [break] of the
    [except] clause takes effect only after the [finally] clause: the
    supervisor still goes to DROPPED and WAITING and calls the refresh login.
    When the refresh login returns, the counter is 0 when the loop is left;
    when it raises, the counter is still -1.  Either way
    [self.disconnect()] is not awaited, the teardown hook is not called, and
    the client ends in state WAITING, not DISCONNECTED. *)
Theorem first_attempt_failure_still_refreshes :
  forall (max_retries : Z) (username password : string)
         (refresh_fails : bool),
    -1 <= max_retries ->
    let c := __init__ username password in
    let c' :=
      exec (async_run_client max_retries [mkCycle [] true [] refresh_fails]) c in
    eval (async_run_client max_retries [mkCycle [] true [] refresh_fails]) c =
      Returned /\
    log c' =
      [Drive (-1);
       Warned "Unhandled exception on first connect attempt";
       Published EVENT_STATE_CHANGED [VState INITIALIZING; VState DROPPED];
       Published EVENT_STATE_CHANGED [VState DROPPED; VState WAITING];
       NeverAwaited "asyncio.sleep(5)";
       RefreshLogin;
       NeverAwaited "self.disconnect()"] /\
    _retries_since_last_connect c' = (if refresh_fails then -1 else 0) /\
    _state c' = WAITING /\
    _disconnect_requested c' = false.
Proof.
  intros max_retries username password refresh_fails Hmax. cbv zeta.
  unfold async_run_client.
  rewrite eval_bind, exec_bind, exec_modify, eval_bind, exec_bind.
  set (c0 := with_disconnect_requested false (__init__ username password)).
  set (cy := mkCycle [] true [] refresh_fails).
  assert (Hs : supervise max_retries [cy] c0 =
               (Returned, exec (loop_body cy) c0)).
  { rewrite supervise_cons by (try reflexivity; exact Hmax).
    destruct refresh_fails; reflexivity. }
  assert (E1 : eval (supervise max_retries [cy]) c0 = Returned)
    by (unfold eval; now rewrite Hs).
  assert (E2 : exec (supervise max_retries [cy]) c0 = exec (loop_body cy) c0)
    by (unfold exec at 1; now rewrite Hs).
  rewrite E1, E2. unfold never_awaited.
  rewrite eval_bind, exec_bind, eval_ret, exec_ret, exec_note.
  destruct refresh_fails; repeat split; reflexivity.
Qed.

Lemma first_attempt_failure_still_refreshes_witness :
  let c' :=
    exec (async_run_client 3 [mkCycle [] true [] false])
      (__init__ "user" "secret") in
  RefreshLogin ∈ log c' /\
  _retries_since_last_connect c' = 0 /\
  _state c' = WAITING.
Proof.
  assert (Hmax : -1 <= 3) by lia.
  destruct (first_attempt_failure_still_refreshes 3 "user" "secret" false Hmax)
    as (_ & Hlog & Hr & Hst & _).
  cbv zeta. split; [|split; [exact Hr | exact Hst]].
  rewrite Hlog. do 5 apply list_elem_of_further.
  apply list_elem_of_here.
Defined.

(** * Further properties of the code *)

(** ** The event bus *)

(** X1. [add_event_handler] with [disposable] raises [NotImplementedError]
    and leaves the client as it was.  Without it the callback is appended at
    the end of the event's list, also when it is already in the list, and
    the lists of all other events, the log and the queue of futures are
    untouched. *)
Theorem add_event_handler_appends_at_the_end :
  forall (event : string) (cb : callback) (c : GeBaseClient),
    add_event_handler event cb true c = (Some NotImplementedError, c) /\
    eval (add_event_handler event cb false) c = None /\
    (forall event' : string,
       handlers_of event' (exec (add_event_handler event cb false) c) =
       if decide (event' = event) then handlers_of event c ++ [cb]
       else handlers_of event' c) /\
    log (exec (add_event_handler event cb false) c) = log c /\
    pending (exec (add_event_handler event cb false) c) = pending c.
Proof.
  intros event cb c. split; [reflexivity|].
  split.
  { unfold add_event_handler. rewrite !eval_bind, eval_ret. reflexivity. }
  rewrite exec_add_event_handler. cbv zeta.
  destruct (getitem_fields event c) as (_ & _ & _ & _ & G5 & G6).
  cbn [log pending with_event_handlers]. rewrite G5, G6.
  repeat split; try reflexivity.
  intros event'. unfold handlers_of at 1.
  cbn [_event_handlers with_event_handlers].
  destruct (decide (event' = event)) as [->|Hne].
  - rewrite lookup_insert_eq. reflexivity.
  - rewrite lookup_insert_ne by congruence.
    change (handlers_of event' (exec (event_handlers_getitem event) c) =
            handlers_of event' c).
    apply handlers_of_getitem.
Qed.

(** X2. [async_event] runs no callback: it appends one future per handler of
    the event to the queue, in subscription order, and one entry to the log;
    the state, the retry counter and the handler lists of all events are as
    before, also when the event had no list yet. *)
Theorem async_event_only_schedules :
  forall (event : string) (args : list pyval) (c : GeBaseClient),
    let c' := exec (async_event event args) c in
    pending c' = pending c ++ map (fun cb => (cb, args)) (handlers_of event c) /\
    log c' = log c ++ [Published event args] /\
    (forall event' : string, handlers_of event' c' = handlers_of event' c) /\
    _state c' = _state c /\
    _retries_since_last_connect c' = _retries_since_last_connect c /\
    _disconnect_requested c' = _disconnect_requested c.
Proof.
  intros event args c. cbv zeta.
  destruct (async_event_fields event args c)
    as (H1 & _ & H3 & H4 & H5 & H6 & H7).
  repeat split; assumption.
Qed.

Lemma run_tasks_observers (ns : list nat) (args : list pyval)
    (c : GeBaseClient) :
  let c' := exec (run_tasks (map (fun n => (cb_observer n, args)) ns)) c in
  log c' = log c ++ map (fun n => Ran n args) ns /\
  pending c' = pending c /\
  _state c' = _state c /\
  (forall event : string, handlers_of event c' = handlers_of event c).
Proof.
  revert c. induction ns as [|n ns IH]; intros c; cbn [map run_tasks].
  - cbv zeta. rewrite exec_ret, app_nil_r. repeat split; reflexivity.
  - cbv zeta. rewrite exec_bind. cbn [run_task]. rewrite exec_note.
    destruct (IH (with_log (log c ++ [Ran n args]) c)) as (I1 & I2 & I3 & I4).
    rewrite I1, I2, I3. cbn [log pending _state with_log].
    rewrite <- app_assoc. repeat split; try reflexivity.
    intros event. rewrite I4. reflexivity.
Qed.

(** X3. When the handlers of an event are observers and no future is waiting,
    publishing the event and letting the event loop make one pass runs every
    observer once, in subscription order and with the event's arguments, and
    leaves the queue empty. *)
Theorem publish_then_pass_runs_observers_in_order :
  forall (event : string) (args : list pyval) (ns : list nat)
         (c : GeBaseClient),
    handlers_of event c = map cb_observer ns ->
    pending c = [] ->
    let c' := exec (async_event event args ;; event_loop_pass) c in
    log c' = log c ++ Published event args :: map (fun n => Ran n args) ns /\
    pending c' = [] /\
    _state c' = _state c.
Proof.
  intros event args ns c Hh Hp. cbv zeta.
  rewrite exec_bind. unfold event_loop_pass.
  rewrite !exec_bind, exec_get, eval_get, exec_modify.
  destruct (async_event_fields event args c)
    as (H1 & _ & _ & _ & _ & H6 & H7).
  set (c1 := exec (async_event event args) c) in *.
  rewrite Hh, Hp, map_map in H7. cbn [app] in H7. rewrite H7.
  destruct (run_tasks_observers ns args (with_pending [] c1))
    as (R1 & R2 & R3 & _).
  rewrite R1, R2, R3. cbn [log pending _state with_pending].
  rewrite H6, H1, <- app_assoc. repeat split; reflexivity.
Qed.

Lemma publish_then_pass_runs_observers_in_order_witness :
  let c :=
    exec (add_event_handler EVENT_CONNECTED (cb_observer 1) false ;;
          add_event_handler EVENT_CONNECTED (cb_observer 2) false)
      (__init__ "user" "secret") in
  log (exec (async_event EVENT_CONNECTED [] ;; event_loop_pass) c) =
  [Published EVENT_CONNECTED []; Ran 1%nat []; Ran 2%nat []].
Proof.
  cbv zeta.
  destruct (publish_then_pass_runs_observers_in_order EVENT_CONNECTED []
              [1%nat; 2%nat]
              (exec (add_event_handler EVENT_CONNECTED (cb_observer 1) false ;;
                     add_event_handler EVENT_CONNECTED (cb_observer 2) false)
                 (__init__ "user" "secret")) eq_refl eq_refl) as (H & _).
  exact H.
Defined.

(** X4. [clear_event_handlers] leaves the internal listener as the only
    handler of [STATE_CHANGED] and no handler for any other event, whatever
    was registered before; the futures already scheduled, the log, the state
    and the retry counter are untouched. *)
Theorem clear_event_handlers_keeps_only_the_listener :
  forall (c : GeBaseClient),
    let c' := exec clear_event_handlers c in
    (forall event : string,
       handlers_of event c' =
       if decide (event = EVENT_STATE_CHANGED) then [cb_on_state_change]
       else []) /\
    pending c' = pending c /\
    log c' = log c /\
    _state c' = _state c /\
    _retries_since_last_connect c' = _retries_since_last_connect c.
Proof.
  intros c. cbv zeta. unfold clear_event_handlers.
  destruct (initialize_event_handlers_fields c)
    as (H1 & _ & _ & H4 & H5 & H6 & H7).
  repeat split; try assumption.
  intros event. destruct (decide (event = EVENT_STATE_CHANGED)) as [->|Hne].
  - exact H7.
  - unfold _initialize_event_handlers.
    rewrite !exec_bind, exec_ret, exec_modify, exec_add_event_handler.
    cbv zeta. unfold handlers_of at 1.
    cbn [_event_handlers with_event_handlers].
    rewrite lookup_insert_ne by congruence.
    change (handlers_of event
              (exec (event_handlers_getitem EVENT_STATE_CHANGED)
                 (with_event_handlers ∅ c)) = []).
    rewrite handlers_of_getitem. reflexivity.
Qed.

(** ** Appliance initialisation *)

Lemma maybe_trigger_fields (a : GeAppliance.t) (has_type : bool)
    (c : GeBaseClient) :
  let a' := eval (_maybe_trigger_appliance_init_event a has_type) c in
  let c' := exec (_maybe_trigger_appliance_init_event a has_type) c in
  GeAppliance.initialized a' = GeAppliance.initialized a || has_type /\
  GeAppliance.available a' = GeAppliance.available a /\
  GeAppliance.mac_addr a' = GeAppliance.mac_addr a /\
  log c' =
    log c ++
    (if negb (GeAppliance.initialized a) && has_type
     then [Published EVENT_APPLIANCE_INITIAL_UPDATE
             [VAppliance (GeAppliance.mac_addr a)]]
     else []).
Proof.
  cbv zeta. unfold _maybe_trigger_appliance_init_event, await.
  destruct has_type, (GeAppliance.initialized a) eqn:Hi; cbn [andb negb orb];
    cbv iota zeta.
  - rewrite exec_ret, eval_ret, app_nil_r, Hi. repeat split; reflexivity.
  - rewrite exec_bind, eval_bind, exec_ret, eval_ret.
    destruct (async_event_fields EVENT_APPLIANCE_INITIAL_UPDATE
                [VAppliance
                   (GeAppliance.mac_addr (GeAppliance.set_initialized a))]
                c) as (_ & _ & _ & _ & _ & H6 & _).
    rewrite H6. repeat split; reflexivity.
  - rewrite exec_ret, eval_ret, app_nil_r, Hi. repeat split; reflexivity.
  - rewrite exec_ret, eval_ret, app_nil_r, Hi. repeat split; reflexivity.
Qed.

(** X5. Over any sequence of updates of one appliance,
    [APPLIANCE_INITIAL_UPDATE] is published at most once: exactly when the
    appliance was not yet initialized and some update carries the appliance
    type.  The initialized flag is then set and never cleared; the
    availability flag is not touched. *)
Theorem initial_update_is_published_at_most_once :
  forall (updates : list bool) (a : GeAppliance.t) (c : GeBaseClient),
    let a' := eval (trigger_updates a updates) c in
    let c' := exec (trigger_updates a updates) c in
    log c' =
      log c ++
      (if negb (GeAppliance.initialized a) && existsb (fun b => b) updates
       then [Published EVENT_APPLIANCE_INITIAL_UPDATE
               [VAppliance (GeAppliance.mac_addr a)]]
       else []) /\
    GeAppliance.initialized a' =
      GeAppliance.initialized a || existsb (fun b => b) updates /\
    GeAppliance.available a' = GeAppliance.available a.
Proof.
  induction updates as [|u updates IH]; intros a c; cbv zeta;
    cbn [trigger_updates existsb].
  - rewrite exec_ret, eval_ret, Bool.andb_false_r, Bool.orb_false_r,
      app_nil_r. repeat split; reflexivity.
  - unfold await. rewrite exec_bind, eval_bind.
    destruct (maybe_trigger_fields a u c) as (M1 & M2 & M3 & M4).
    destruct (IH (eval (_maybe_trigger_appliance_init_event a u) c)
                 (exec (_maybe_trigger_appliance_init_event a u) c))
      as (I1 & I2 & I3).
    rewrite I1, I2, I3, M1, M2, M3, M4, <- app_assoc.
    repeat split; try reflexivity.
    + destruct (GeAppliance.initialized a), u; cbn [negb andb orb app];
        try reflexivity;
        destruct (existsb (fun b => b) updates); reflexivity.
    + rewrite Bool.orb_assoc. reflexivity.
Qed.

(** ** [disconnect] and [_set_state] from any state *)

Lemma set_state_full (new_state : GeClientState) (c : GeBaseClient) :
  let c' := exec (_set_state new_state) c in
  _state c' = new_state /\
  _connected c' = _connected c /\
  _disconnect_requested c' = _disconnect_requested c /\
  _retries_since_last_connect c' = _retries_since_last_connect c /\
  (forall event, handlers_of event c' = handlers_of event c) /\
  log c' =
    log c ++
    (if decide (_state c = new_state) then []
     else [Published EVENT_STATE_CHANGED [VState (_state c); VState new_state]]) /\
  pending c' =
    pending c ++
    (if decide (_state c = new_state) then []
     else map (fun cb => (cb, [VState (_state c); VState new_state]))
            (handlers_of EVENT_STATE_CHANGED c)).
Proof.
  cbv zeta. destruct (decide (_state c = new_state)) as [E|Hne].
  - assert (Hx : exec (_set_state new_state) c = c).
    { rewrite <- E. unfold exec. now rewrite set_state_unchanged. }
    rewrite Hx, !app_nil_r. repeat split; try reflexivity. exact E.
  - destruct (set_state_changed new_state c Hne)
      as (_ & S2 & S3 & S4 & S5 & S6 & S7 & S8).
    repeat split; assumption.
Qed.

(** X6. From any state, [disconnect] ends in DISCONNECTED with the
    disconnect request set, calls the teardown hook exactly once, and leaves
    the retry counter alone.  It publishes [STATE_CHANGED] for the step to
    DISCONNECTING, unless the client was already there, and for the step to
    DISCONNECTED; afterwards [connected] and [available] are both false. *)
Theorem disconnect_ends_disconnected :
  forall (c : GeBaseClient),
    let c' := exec disconnect c in
    _state c' = DISCONNECTED /\
    _disconnect_requested c' = true /\
    _connected c' = false /\
    _retries_since_last_connect c' = _retries_since_last_connect c /\
    log c' =
      log c ++
      (if decide (_state c = DISCONNECTING) then []
       else [Published EVENT_STATE_CHANGED
               [VState (_state c); VState DISCONNECTING]]) ++
      [Teardown;
       Published EVENT_STATE_CHANGED [VState DISCONNECTING; VState DISCONNECTED]] /\
    connected c' = false /\
    available c' = false.
Proof.
  intros c. cbv zeta.
  assert (H : _state (exec disconnect c) = DISCONNECTED /\
              _disconnect_requested (exec disconnect c) = true /\
              _connected (exec disconnect c) = false /\
              _retries_since_last_connect (exec disconnect c) =
                _retries_since_last_connect c /\
              log (exec disconnect c) =
                log c ++
                (if decide (_state c = DISCONNECTING) then []
                 else [Published EVENT_STATE_CHANGED
                         [VState (_state c); VState DISCONNECTING]]) ++
                [Teardown;
                 Published EVENT_STATE_CHANGED
                   [VState DISCONNECTING; VState DISCONNECTED]]).
  { unfold disconnect, _disconnect, await.
    rewrite !exec_bind, exec_ret, !exec_modify, exec_note.
    destruct (set_state_full DISCONNECTING c)
      as (S1 & _ & _ & S4 & _ & S6 & _).
    set (c1 := exec (_set_state DISCONNECTING) c) in *.
    set (c3 := with_log _ _).
    assert (H3 : _state c3 <> DISCONNECTED)
      by (unfold c3; cbn; rewrite S1; discriminate).
    destruct (set_state_changed DISCONNECTED c3 H3)
      as (_ & T2 & T3 & T4 & T5 & _ & T7 & _).
    rewrite T2, T3, T4, T5, T7. unfold c3. cbn.
    rewrite S1, S4, S6, <- !app_assoc. repeat split; reflexivity. }
  destruct H as (H1 & H2 & H3 & H4 & H5).
  repeat split; try assumption.
  - unfold connected. rewrite H1. reflexivity.
  - unfold available. rewrite H1. reflexivity.
Qed.

(** ** The retry counter never goes below -1 *)

(** X7. In every client that the constructor and the methods can produce,
    the retry counter is at least -1. *)
Theorem reachable_retries_at_least_minus_one :
  forall (c : GeBaseClient),
    reachable c -> -1 <= _retries_since_last_connect c.
Proof.
  induction 1 as [u p|k c _ IH|m script c _ IH].
  - vm_compute. discriminate.
  - revert IH.
    apply (keeps_do_call (fun c' => -1 <= _retries_since_last_connect c')
             no_loud true); cbv beta.
    + intros a0 Ha; discriminate Ha.
    + intros ? ? H; exact H.
    + intros ? ? H; exact H.
    + intros ? ? H; exact H.
    + intros ? ? H; exact H.
    + intros ? ? ? H; exact H.
    + intros ? ? ? H; exact H.
    + intros c0 H.
      destruct (initialize_event_handlers_fields c0)
        as (_ & _ & _ & -> & _); exact H.
    + intros _ c0 H. cbn. lia.
    + apply call_ok_resets.
  - revert IH.
    apply (keeps_async_run_client m
             (fun c' => -1 <= _retries_since_last_connect c') no_loud true);
      cbv beta.
    + intros a0 Ha; discriminate Ha.
    + intros ? ? H; exact H.
    + intros ? ? H; exact H.
    + intros ? ? H; exact H.
    + intros ? ? H; exact H.
    + intros ? ? ? H; exact H.
    + intros ? H ?; exact H.
    + intros ? ? ? H; exact H.
    + intros c0 H.
      destruct (initialize_event_handlers_fields c0)
        as (_ & _ & _ & -> & _); exact H.
    + intros c0 H. cbn. lia.
    + intros _ c0 H. cbn. lia.
    + apply cycles_ok_resets.
Qed.

Lemma reachable_retries_at_least_minus_one_witness :
  -1 <=
  _retries_since_last_connect
    (exec (async_run_client 3 [mkCycle [call_set_connected] false [] false])
       (__init__ "user" "secret")).
Proof.
  apply reachable_retries_at_least_minus_one.
  apply reachable_run, reachable_init.
Defined.

(** ** A turn of the supervisor's loop, stage by stage *)

Lemma eval_except_clause (raised : bool) (c : GeBaseClient) :
  eval (except_clause raised) c =
  if raised && bool_decide (_retries_since_last_connect c = -1)
  then Break else Continue.
Proof.
  unfold except_clause. destruct raised; cbn [andb]; [|reflexivity].
  rewrite eval_bind, exec_get, eval_get.
  destruct (bool_decide _); reflexivity.
Qed.

Lemma eval_drive (cy : cycle) (c : GeBaseClient) :
  eval (_async_run_client cy) c = drive_raises cy.
Proof. apply drive_fields. Qed.

Lemma eval_refresh (cy : cycle) (c : GeBaseClient) :
  eval (async_do_refresh_login_flow cy) c = refresh_raises cy.
Proof. apply refresh_login_flow_fields. Qed.

Lemma after_dropped_fields (cy : cycle) (c : GeBaseClient) :
  _state (after_dropped cy c) = DROPPED /\
  _disconnect_requested (after_dropped cy c) =
    _disconnect_requested (after_drive cy c) /\
  _retries_since_last_connect (after_dropped cy c) =
    _retries_since_last_connect (after_drive cy c).
Proof.
  unfold after_dropped.
  destruct (except_clause_fields (drive_raises cy) (after_drive cy c))
    as (E1 & E2 & _).
  destruct (set_state_any DROPPED
              (exec (except_clause (drive_raises cy)) (after_drive cy c)))
    as (D1 & D2 & D3 & _).
  rewrite D1, D2, D3, E1, E2. repeat split; reflexivity.
Qed.

Lemma run_bind {A B : Type} (m : M A) (k : A -> M B) (c : GeBaseClient) :
  bind m k c = k (eval m c) (exec m c).
Proof. unfold bind, eval, exec. destruct (m c); reflexivity. Qed.

(** The whole turn in terms of its stages. *)
Lemma loop_body_stages (cy : cycle) (c : GeBaseClient) :
  loop_body cy c =
  if _disconnect_requested (after_drive cy c) then
    (if first_attempt_failed cy c then Break else Continue,
     with_retries (_retries_since_last_connect (after_dropped cy c) + 1)
       (after_dropped cy c))
  else if refresh_raises cy then (Break, after_refresh cy c)
  else
    (if first_attempt_failed cy c then Break else Continue,
     with_retries (_retries_since_last_connect (after_refresh cy c) + 1)
       (after_refresh cy c)).
Proof.
  destruct (after_dropped_fields cy c) as (_ & D2 & _).
  unfold loop_body, await.
  rewrite run_bind, eval_drive. fold (after_drive cy c).
  rewrite run_bind, eval_except_clause. fold (first_attempt_failed cy c).
  rewrite run_bind. fold (after_dropped cy c).
  rewrite run_bind, exec_get, eval_get, D2.
  destruct (_disconnect_requested (after_drive cy c)); cbn [negb].
  - rewrite run_bind, exec_ret, eval_ret.
    rewrite run_bind, exec_modify. reflexivity.
  - rewrite run_bind. fold (after_refresh cy c).
    assert (Hr : eval (_set_state WAITING ;;
                       never_awaited "asyncio.sleep(5)" (asyncio_sleep 5) ;;
                       async_do_refresh_login_flow cy) (after_dropped cy c) =
                 refresh_raises cy)
      by (rewrite !eval_bind; apply eval_refresh).
    rewrite Hr. destruct (refresh_raises cy); [reflexivity|].
    rewrite run_bind, exec_modify. reflexivity.
Qed.


(** ** Bounded retries *)

Lemma do_calls_keep_retries (ks : list call) (c : GeBaseClient) :
  call_set_connected ∉ ks ->
  _retries_since_last_connect (exec (do_calls ks) c) =
  _retries_since_last_connect c.
Proof.
  intros Hks.
  apply (keeps_do_calls
           (fun c' => _retries_since_last_connect c' =
                      _retries_since_last_connect c) no_loud false);
    try retries_leaf;
    [apply calls_ok_without_set_connected, Hks | reflexivity].
Qed.

Lemma unconfirmed_turn_retries (cy : cycle) (c : GeBaseClient) :
  never_confirms cy ->
  _retries_since_last_connect (after_drive cy c) =
    _retries_since_last_connect c /\
  _retries_since_last_connect (after_dropped cy c) =
    _retries_since_last_connect c /\
  _retries_since_last_connect (after_refresh cy c) =
    _retries_since_last_connect c.
Proof.
  intros [Hd Hr].
  assert (H1 : _retries_since_last_connect (after_drive cy c) =
               _retries_since_last_connect c).
  { unfold after_drive, _async_run_client.
    rewrite !exec_bind, exec_ret, exec_get, exec_note.
    rewrite do_calls_keep_retries by exact Hd. reflexivity. }
  destruct (after_dropped_fields cy c) as (_ & _ & D3).
  assert (H2 : _retries_since_last_connect (after_dropped cy c) =
               _retries_since_last_connect c) by (rewrite D3; exact H1).
  repeat split; [exact H1 | exact H2 |].
  unfold after_refresh, never_awaited, async_do_refresh_login_flow.
  rewrite !exec_bind, exec_ret, !exec_note.
  rewrite do_calls_keep_retries by exact Hr.
  cbn [_retries_since_last_connect with_log].
  destruct (set_state_any WAITING (after_dropped cy c)) as (_ & _ & W3 & _).
  rewrite W3. exact H2.
Qed.

Lemma unconfirmed_turn_continues (cy : cycle) (c : GeBaseClient) :
  never_confirms cy ->
  eval (loop_body cy) c = Continue ->
  _retries_since_last_connect (exec (loop_body cy) c) =
  _retries_since_last_connect c + 1.
Proof.
  intros Hcy. destruct (unconfirmed_turn_retries cy c Hcy) as (_ & H2 & H3).
  unfold eval, exec. rewrite loop_body_stages.
  destruct (_disconnect_requested (after_drive cy c)); cbn [fst snd].
  - intros _. cbn [_retries_since_last_connect with_retries].
    rewrite H2. reflexivity.
  - destruct (refresh_raises cy); cbn [fst snd]; [discriminate|].
    intros _. cbn [_retries_since_last_connect with_retries].
    rewrite H3. reflexivity.
Qed.

Lemma supervise_requested (max_retries : Z) (script : list cycle)
    (c : GeBaseClient) :
  _disconnect_requested c = true ->
  supervise max_retries script c = (Returned, c).
Proof.
  intros Hreq. destruct script; cbn [supervise]; unfold bind, get;
    rewrite Hreq; reflexivity.
Qed.

Lemma supervise_bounded (max_retries : Z) (script : list cycle)
    (c : GeBaseClient) :
  Forall never_confirms script ->
  (Z.to_nat (max_retries + 1 - _retries_since_last_connect c) <=
   length script)%nat ->
  eval (supervise max_retries script) c = Returned /\
  supervise max_retries script c =
  supervise max_retries
    (firstn (Z.to_nat (max_retries + 1 - _retries_since_last_connect c))
       script) c.
Proof.
  intros Hs. revert c.
  induction Hs as [|cy rest Hcy _ IH]; intros c Hlen.
  - rewrite firstn_nil. split; [|reflexivity].
    destruct (_disconnect_requested c) eqn:Hreq.
    + unfold eval. rewrite supervise_requested by exact Hreq. reflexivity.
    + unfold eval. rewrite supervise_over_max; [reflexivity|exact Hreq|].
      cbn [length] in Hlen. lia.
  - destruct (_disconnect_requested c) eqn:Hreq.
    { unfold eval. rewrite !supervise_requested by exact Hreq.
      split; reflexivity. }
    destruct (Z_gt_le_dec (_retries_since_last_connect c) max_retries)
      as [Hgt|Hle].
    { unfold eval. rewrite !supervise_over_max by assumption.
      split; reflexivity. }
    assert (Hn : Z.to_nat (max_retries + 1 - _retries_since_last_connect c) =
                 S (Z.to_nat
                      (max_retries + 1 -
                       (_retries_since_last_connect c + 1)))) by lia.
    rewrite Hn. cbn [firstn]. unfold eval.
    rewrite !supervise_cons by assumption.
    destruct (eval (loop_body cy) c) eqn:Hf; [|split; reflexivity].
    pose proof (unconfirmed_turn_continues cy c Hcy Hf) as Hr.
    destruct (IH (exec (loop_body cy) c)) as (I1 & I2).
    { rewrite Hr. cbn [length] in Hlen. lia. }
    rewrite Hr in I2. split; [exact I1 | exact I2].
Qed.

(** X9. Retries are bounded.  When no collaborator confirms a connection
    with [_set_connected], [async_run_client] started with retry counter
    [r] returns after at most [MAX_RETRIES + 1 - r] turns of its loop: with
    that many cycles at hand it returns, and cycles beyond that number are
    never reached.  For a fresh client this is at most [MAX_RETRIES + 2]
    drive calls. *)
Theorem unconfirmed_run_returns_within_the_retry_budget :
  forall (max_retries : Z) (script : list cycle) (c : GeBaseClient),
    Forall never_confirms script ->
    (Z.to_nat (max_retries + 1 - _retries_since_last_connect c) <=
     length script)%nat ->
    eval (async_run_client max_retries script) c = Returned /\
    async_run_client max_retries script c =
    async_run_client max_retries
      (firstn (Z.to_nat (max_retries + 1 - _retries_since_last_connect c))
         script) c.
Proof.
  intros max_retries script c Hs Hlen.
  destruct (supervise_bounded max_retries script
              (with_disconnect_requested false c) Hs Hlen) as (B1 & B2).
  cbn [_retries_since_last_connect with_disconnect_requested] in B2.
  unfold async_run_client.
  rewrite eval_bind, exec_modify, eval_bind, B1.
  split; [reflexivity|].
  rewrite !run_bind, exec_modify.
  unfold eval at 1 2, exec at 1 2. rewrite <- B2. reflexivity.
Qed.

Lemma unconfirmed_run_returns_within_the_retry_budget_witness :
  let turn := mkCycle [call_set_state AUTHORIZING_OAUTH] false
                [call_set_state AUTHORIZING_OAUTH] false in
  let c := with_retries 0 (__init__ "user" "secret") in
  eval (async_run_client 1 [turn; turn; turn]) c = Returned /\
  async_run_client 1 [turn; turn; turn] c =
  async_run_client 1 [turn; turn] c.
Proof.
  cbv zeta.
  apply (unconfirmed_run_returns_within_the_retry_budget 1
           [mkCycle [call_set_state AUTHORIZING_OAUTH] false
              [call_set_state AUTHORIZING_OAUTH] false;
            mkCycle [call_set_state AUTHORIZING_OAUTH] false
              [call_set_state AUTHORIZING_OAUTH] false;
            mkCycle [call_set_state AUTHORIZING_OAUTH] false
              [call_set_state AUTHORIZING_OAUTH] false]
           (with_retries 0 (__init__ "user" "secret"))).
  - assert (Ht : never_confirms
                   (mkCycle [call_set_state AUTHORIZING_OAUTH] false
                      [call_set_state AUTHORIZING_OAUTH] false)).
    { split; cbn; intros H; apply elem_of_cons in H as [H|H];
        solve [discriminate H | inversion H]. }
    repeat (constructor; [exact Ht|]). constructor.
  - cbn. lia.
Defined.

(** ** A disconnect requested while the drive call runs *)

Lemma exec_except_clause (raised : bool) (c : GeBaseClient) :
  exec (except_clause raised) c =
  if raised && bool_decide (_retries_since_last_connect c = -1)
  then with_log
         (log c ++ [Warned "Unhandled exception on first connect attempt"]) c
  else c.
Proof.
  unfold except_clause. destruct raised; cbn [andb]; [|reflexivity].
  rewrite exec_bind, exec_get, eval_get.
  destruct (bool_decide _); reflexivity.
Qed.

Lemma after_dropped_log (cy : cycle) (c : GeBaseClient) :
  log (after_dropped cy c) =
  log (after_drive cy c) ++
  (if first_attempt_failed cy c
   then [Warned "Unhandled exception on first connect attempt"] else []) ++
  (if decide (_state (after_drive cy c) = DROPPED) then []
   else [Published EVENT_STATE_CHANGED
           [VState (_state (after_drive cy c)); VState DROPPED]]).
Proof.
  unfold after_dropped. rewrite exec_except_clause.
  fold (first_attempt_failed cy c).
  destruct (first_attempt_failed cy c).
  - destruct (set_state_full DROPPED
                (with_log
                   (log (after_drive cy c) ++
                    [Warned "Unhandled exception on first connect attempt"])
                   (after_drive cy c))) as (_ & _ & _ & _ & _ & S6 & _).
    rewrite S6. cbn [log _state with_log]. rewrite <- app_assoc. reflexivity.
  - destruct (set_state_full DROPPED (after_drive cy c))
      as (_ & _ & _ & _ & _ & S6 & _).
    rewrite S6. reflexivity.
Qed.

(** X10. When disconnect is requested while the drive call runs, the turn
    of the loop makes no refresh login and no transition to WAITING, and the
    loop ends after it without another drive call.  The supervisor still
    sets the state to DROPPED after the drive call and adds one to the retry
    counter; as [self.disconnect()] is never awaited the run leaves the
    client in DROPPED, where [connected] is true. *)
Theorem disconnect_during_drive_leaves_the_client_dropped :
  forall (max_retries : Z) (cy : cycle) (rest : list cycle)
         (c : GeBaseClient),
    _retries_since_last_connect c <= max_retries ->
    let c0 := with_disconnect_requested false c in
    _disconnect_requested (exec (_async_run_client cy) c0) = true ->
    let c1 := exec (_async_run_client cy) c0 in
    let c' := exec (async_run_client max_retries (cy :: rest)) c in
    eval (async_run_client max_retries (cy :: rest)) c = Returned /\
    _state c' = DROPPED /\
    connected c' = true /\
    _disconnect_requested c' = true /\
    _retries_since_last_connect c' = _retries_since_last_connect c1 + 1 /\
    log c' =
      log c1 ++
      (if drive_raises cy && bool_decide (_retries_since_last_connect c1 = -1)
       then [Warned "Unhandled exception on first connect attempt"] else []) ++
      (if decide (_state c1 = DROPPED) then []
       else [Published EVENT_STATE_CHANGED [VState (_state c1); VState DROPPED]]) ++
      [NeverAwaited "self.disconnect()"].
Proof.
  intros max_retries cy rest c Hle c0 Hreq. cbv zeta.
  fold c0. fold (after_drive cy c0) in *.
  destruct (after_dropped_fields cy c0) as (D1 & D2 & D3).
  pose proof (after_dropped_log cy c0) as Hlog.
  set (c2 := with_retries
               (_retries_since_last_connect (after_dropped cy c0) + 1)
               (after_dropped cy c0)).
  assert (Hs : supervise max_retries (cy :: rest) c0 = (Returned, c2)).
  { rewrite supervise_cons by (try reflexivity; exact Hle).
    unfold eval, exec. rewrite loop_body_stages, Hreq. cbn [fst snd].
    fold c2.
    destruct (first_attempt_failed cy c0); [reflexivity|].
    apply supervise_requested. unfold c2.
    cbn [_disconnect_requested with_retries]. rewrite D2. exact Hreq. }
  assert (Hrun : async_run_client max_retries (cy :: rest) c =
                 (Returned,
                  with_log (log c2 ++ [NeverAwaited "self.disconnect()"]) c2)).
  { unfold async_run_client. rewrite run_bind, exec_modify. fold c0.
    rewrite run_bind. unfold eval at 1, exec at 1. rewrite Hs. cbn [fst snd].
    unfold never_awaited. rewrite run_bind, exec_note. reflexivity. }
  unfold eval, exec. rewrite Hrun. cbn [fst snd].
  unfold connected. unfold c2.
  cbn [_state _disconnect_requested _retries_since_last_connect log
       with_log with_retries].
  rewrite D1, D2, D3, Hlog, Hreq, <- !app_assoc.
  repeat split; reflexivity.
Qed.

Lemma disconnect_during_drive_leaves_the_client_dropped_witness :
  let cy := mkCycle [call_set_connected; call_disconnect] false [] false in
  let c' :=
    exec (async_run_client 3 [cy; cy]) (__init__ "user" "secret") in
  _state c' = DROPPED /\ connected c' = true /\
  _retries_since_last_connect c' = 0.
Proof.
  assert (Hle : _retries_since_last_connect (__init__ "user" "secret") <= 3)
    by (vm_compute; discriminate).
  destruct (disconnect_during_drive_leaves_the_client_dropped 3
              (mkCycle [call_set_connected; call_disconnect] false [] false)
              [mkCycle [call_set_connected; call_disconnect] false [] false]
              (__init__ "user" "secret") Hle eq_refl)
    as (_ & H2 & H3 & _ & H5 & _).
  cbv zeta. split; [exact H2|]. split; [exact H3|exact H5].
Defined.

(** ** A run after an earlier disconnect *)

Lemma supervise_log_extends (max_retries : Z) (script : list cycle)
    (before : list action) (c : GeBaseClient) :
  log_extends before c ->
  log_extends before (exec (supervise max_retries script) c).
Proof.
  apply (keeps_supervise max_retries (log_extends before) no_loud true);
    try log_extends_leaf.
  apply cycles_ok_resets.
Qed.

Lemma loop_body_log_starts_with_drive (cy : cycle) (c : GeBaseClient) :
  log_extends (log c ++ [Drive (_retries_since_last_connect c)])
    (exec (loop_body cy) c).
Proof.
  assert (H1 : log_extends (log c ++ [Drive (_retries_since_last_connect c)])
                 (after_drive cy c)).
  { destruct (drive_fields cy c) as (_ & l & Hl). exists l.
    unfold after_drive. rewrite Hl, <- app_assoc. reflexivity. }
  assert (H2 : log_extends (log c ++ [Drive (_retries_since_last_connect c)])
                 (after_dropped cy c)).
  { destruct H1 as [l Hl]. unfold log_extends.
    rewrite after_dropped_log, Hl.
    eexists. rewrite <- app_assoc. reflexivity. }
  assert (H3 : log_extends (log c ++ [Drive (_retries_since_last_connect c)])
                 (after_refresh cy c)).
  { destruct H2 as [l Hl].
    unfold after_refresh, never_awaited. rewrite !exec_bind, exec_note.
    destruct (set_state_any WAITING (after_dropped cy c))
      as (_ & _ & _ & lw & Hw).
    set (c3 := exec (_set_state WAITING) (after_dropped cy c)) in *.
    destruct (refresh_login_flow_fields cy
                (with_log (log c3 ++ [NeverAwaited "asyncio.sleep(5)"]) c3))
      as (_ & lr & Hr).
    eexists. rewrite Hr. cbn [log with_log]. rewrite Hw, Hl, <- !app_assoc.
    reflexivity. }
  unfold exec at 1. rewrite loop_body_stages.
  destruct (_disconnect_requested (after_drive cy c)); cbn [snd].
  - exact H2.
  - destruct (refresh_raises cy); cbn [snd]; exact H3.
Qed.

(** X11. [async_run_client] forgets a disconnect requested before it was
    called: whatever the flag was, as long as the retry counter does not
    exceed the maximum the drive routine is called, with the counter as it
    stands. *)
Theorem run_forgets_an_earlier_disconnect_request :
  forall (max_retries : Z) (cy : cycle) (rest : list cycle)
         (c : GeBaseClient),
    _retries_since_last_connect c <= max_retries ->
    exists l,
      log (exec (async_run_client max_retries (cy :: rest)) c) =
      log c ++ Drive (_retries_since_last_connect c) :: l.
Proof.
  intros max_retries cy rest c Hle.
  set (c0 := with_disconnect_requested false c).
  assert (Hs : log_extends (log c ++ [Drive (_retries_since_last_connect c)])
                 (exec (supervise max_retries (cy :: rest)) c0)).
  { unfold exec at 1.
    rewrite supervise_cons by (try reflexivity; exact Hle).
    pose proof (loop_body_log_starts_with_drive cy c0) as Hb.
    destruct (eval (loop_body cy) c0); cbn [snd].
    - apply supervise_log_extends. exact Hb.
    - exact Hb. }
  destruct Hs as [l Hl].
  unfold async_run_client. rewrite exec_bind, exec_modify. fold c0.
  rewrite exec_bind.
  destruct (eval (supervise max_retries (cy :: rest)) c0).
  - unfold never_awaited. rewrite exec_bind, exec_ret, exec_note.
    cbn [log with_log]. rewrite Hl.
    exists (l ++ [NeverAwaited "self.disconnect()"]).
    rewrite <- !app_assoc. reflexivity.
  - rewrite exec_ret, Hl. exists l. rewrite <- app_assoc. reflexivity.
Qed.

Lemma run_forgets_an_earlier_disconnect_request_witness :
  let c := exec disconnect (__init__ "user" "secret") in
  _disconnect_requested c = true /\
  exists l,
    log (exec (async_run_client 3 [mkCycle [] false [] false]) c) =
    log c ++ Drive (-1) :: l.
Proof.
  cbv zeta. split; [reflexivity|].
  assert (Hle : _retries_since_last_connect
                  (exec disconnect (__init__ "user" "secret")) <= 3)
    by (vm_compute; discriminate).
  exact (run_forgets_an_earlier_disconnect_request 3
           (mkCycle [] false [] false) []
           (exec disconnect (__init__ "user" "secret")) Hle).
Defined.

(** ** The specific events reach their observers one pass later *)

Lemma on_state_change_exec (old_state new_state : GeClientState)
    (event : string) (c : GeBaseClient) :
  lifecycle_event new_state = Some event ->
  exec (_on_state_change old_state new_state) c =
  exec (async_event event []) c.
Proof.
  intros Hev. unfold _on_state_change, await. rewrite exec_bind.
  destruct new_state; try discriminate Hev; injection Hev as <-;
    repeat (rewrite bool_decide_eq_false_2 by discriminate);
    repeat (rewrite bool_decide_eq_true_2 by reflexivity);
    rewrite ?exec_ret; reflexivity.
Qed.

(** X12. When the internal listener is the only handler of [STATE_CHANGED]
    and the handlers of [CONNECTED] (of [DISCONNECTED]) are observers, a
    transition into that state followed by one pass of the event loop has
    published [STATE_CHANGED] and the specific event, and has scheduled but
    not yet run the observers; they run on the next pass, in subscription
    order and with no arguments. *)
Theorem lifecycle_observers_run_on_the_second_pass :
  forall (new_state : GeClientState) (event : string) (ns : list nat)
         (c : GeBaseClient),
    lifecycle_event new_state = Some event ->
    _state c <> new_state ->
    handlers_of EVENT_STATE_CHANGED c = [cb_on_state_change] ->
    handlers_of event c = map cb_observer ns ->
    pending c = [] ->
    let c1 := exec (_set_state new_state ;; event_loop_pass) c in
    let c2 := exec event_loop_pass c1 in
    log c1 =
      log c ++
      [Published EVENT_STATE_CHANGED [VState (_state c); VState new_state];
       Published event []] /\
    pending c1 = map (fun n => (cb_observer n, [])) ns /\
    log c2 = log c1 ++ map (fun n => Ran n []) ns /\
    pending c2 = [].
Proof.
  intros new_state event ns c Hev Hne Hsc Hobs Hp. cbv zeta.
  destruct (set_state_changed new_state c Hne)
    as (_ & _ & _ & _ & _ & S6 & S7 & S8).
  rewrite Hsc, Hp in S8. cbn [map app] in S8.
  assert (H1 : log (exec (_set_state new_state ;; event_loop_pass) c) =
               log c ++
               [Published EVENT_STATE_CHANGED
                  [VState (_state c); VState new_state];
                Published event []] /\
               pending (exec (_set_state new_state ;; event_loop_pass) c) =
               map (fun n => (cb_observer n, [])) ns).
  { rewrite exec_bind. unfold event_loop_pass.
    rewrite !exec_bind, exec_get, eval_get, exec_modify, S8.
    cbn [run_tasks]. rewrite exec_bind, exec_ret. cbn [run_task].
    rewrite (on_state_change_exec _ _ event) by exact Hev.
    destruct (async_event_fields event []
                (with_pending [] (exec (_set_state new_state) c)))
      as (_ & _ & _ & _ & _ & A6 & A7).
    rewrite A6, A7, handlers_of_with_pending, S6, Hobs, map_map.
    cbn [log pending with_pending app]. rewrite S7, <- app_assoc.
    split; reflexivity. }
  destruct H1 as (L1 & P1).
  split; [exact L1|]. split; [exact P1|].
  revert P1. generalize (exec (_set_state new_state ;; event_loop_pass) c).
  intros c1 P1. unfold event_loop_pass.
  rewrite !exec_bind, exec_get, eval_get, exec_modify, P1.
  destruct (run_tasks_observers ns [] (with_pending [] c1)) as (R1 & R2 & _).
  rewrite R1, R2. split; reflexivity.
Qed.

Lemma lifecycle_observers_run_on_the_second_pass_witness :
  let c :=
    exec (add_event_handler EVENT_DISCONNECTED (cb_observer 5) false)
      (__init__ "user" "secret") in
  let c1 := exec (_set_state DISCONNECTED ;; event_loop_pass) c in
  pending c1 = [(cb_observer 5, [])] /\
  log (exec event_loop_pass c1) = log c1 ++ [Ran 5%nat []].
Proof.
  cbv zeta.
  destruct (lifecycle_observers_run_on_the_second_pass DISCONNECTED
              EVENT_DISCONNECTED [5%nat]
              (exec (add_event_handler EVENT_DISCONNECTED (cb_observer 5) false)
                 (__init__ "user" "secret")))
    as (_ & H2 & H3 & _); try reflexivity.
  - vm_compute. discriminate.
  - split; [exact H2 | exact H3].
Defined.

(** ** OAuth2 tokens *)

Lemma eval_refresh_oauth2_token (req : request) (now : Z) (st : store)
    (c : GeBaseClient) :
  eval (_async_refresh_oauth2_token req now st) c =
  match checked req with
  | inr e => (Some e, st)
  | inl resp =>
      match json_body resp with
      | inr e => (Some e, st)
      | inl oauth_token => store_refreshed_token oauth_token now st
      end
  end.
Proof.
  unfold _async_refresh_oauth2_token. rewrite eval_bind, eval_ret.
  reflexivity.
Qed.

Lemma status_error_none (resp : response) :
  status resp < 400 -> status_error resp = None.
Proof.
  intros H. unfold status_error.
  replace (400 <=? status resp) with false by (symmetry; apply Z.leb_gt; lia).
  replace (500 <=? status resp) with false by (symmetry; apply Z.leb_gt; lia).
  reflexivity.
Qed.

(** X13. [_async_refresh_oauth2_token] first sets the state to
    AUTHORIZING_OAUTH, whatever follows.  A response with a status from 400
    to 499 raises [GeAuthFailedError] and one with a status of 500 or more
    raises [GeGeneralServerError], both with the text of the response and
    with the store untouched; a request that raises hands its error on. *)
Theorem refresh_token_status_decides_the_error :
  forall (resp : response) (e : error) (now : Z) (st : store)
         (c : GeBaseClient),
    _state (exec (_async_refresh_oauth2_token (inl resp) now st) c) =
      AUTHORIZING_OAUTH /\
    eval (_async_refresh_oauth2_token (inr e) now st) c = (Some e, st) /\
    (400 <= status resp ->
     eval (_async_refresh_oauth2_token (inl resp) now st) c =
     (Some (if status resp <? 500 then GeAuthFailedError (text resp)
            else GeGeneralServerError (text resp)), st)).
Proof.
  intros resp e now st c. split; [|split].
  - unfold _async_refresh_oauth2_token, await. rewrite exec_bind, exec_ret.
    apply set_state_any.
  - rewrite eval_refresh_oauth2_token. reflexivity.
  - intros H. rewrite eval_refresh_oauth2_token.
    unfold checked, status_error.
    replace (400 <=? status resp) with true by (symmetry; apply Z.leb_le; lia).
    cbn [andb]. destruct (status resp <? 500) eqn:E; [reflexivity|].
    replace (500 <=? status resp) with true
      by (symmetry; apply Z.leb_le; apply Z.ltb_ge in E; lia).
    reflexivity.
Qed.

Lemma refresh_token_status_decides_the_error_witness :
  eval (_async_refresh_oauth2_token
          (inl (mkResponse 401 "denied" (inr (OtherError 0)) (inr KeyError)))
          1000 (store__init__ 0))
    (__init__ "user" "secret") =
  (Some (GeAuthFailedError "denied"), store__init__ 0).
Proof.
  destruct (refresh_token_status_decides_the_error
              (mkResponse 401 "denied" (inr (OtherError 0)) (inr KeyError))
              KeyError 1000 (store__init__ 0) (__init__ "user" "secret"))
    as (_ & _ & H).
  apply H. cbn. lia.
Defined.



(** X15. A refresh response with a status below 400 that holds
    [access_token] but no [expires_in] raises [GeAuthFailedError] after the
    access token of the store has been replaced: the store then pairs the
    new access token with the old expiry time and the old refresh token. *)
Theorem refresh_token_without_expiry_still_replaces_the_access_token :
  forall (resp : response) (oauth_token : gmap string json) (access : json)
         (now : Z) (st : store) (c : GeBaseClient),
    status resp < 400 ->
    json_body resp = inl oauth_token ->
    oauth_token !! "access_token" = Some access ->
    oauth_token !! "expires_in" = None ->
    eval (_async_refresh_oauth2_token (inl resp) now st) c =
    (Some (GeAuthFailedError "Failed to get a token"),
     mkStore (_session st) (_credentials st) (Some access)
       (_refresh_token st) (_token_expiration_time st)).
Proof.
  intros resp tok access now st c Hs Hj Ha He.
  rewrite eval_refresh_oauth2_token. unfold checked.
  rewrite status_error_none by exact Hs.
  rewrite Hj. unfold store_refreshed_token. rewrite Ha, He. reflexivity.
Qed.

Lemma refresh_token_without_expiry_still_replaces_the_access_token_witness :
  let st := mkStore (Some 1%nat) None (Some (JString "old"))
              (Some (JString "keep")) 50 in
  eval (_async_refresh_oauth2_token
          (inl (mkResponse 200 ""
                  (inl (<["access_token" := JString "abc"]> ∅))
                  (inr KeyError))) 1000 st)
    (__init__ "user" "secret") =
  (Some (GeAuthFailedError "Failed to get a token"),
   mkStore (Some 1%nat) None (Some (JString "abc")) (Some (JString "keep")) 50).
Proof.
  cbv zeta.
  assert (Hs : (200 < 400)%Z) by lia.
  exact (refresh_token_without_expiry_still_replaces_the_access_token
           (mkResponse 200 "" (inl (<["access_token" := JString "abc"]> ∅))
              (inr KeyError))
           (<["access_token" := JString "abc"]> ∅) (JString "abc") 1000
           (mkStore (Some 1%nat) None (Some (JString "old"))
              (Some (JString "keep")) 50)
           (__init__ "user" "secret") Hs eq_refl eq_refl eq_refl).
Defined.

Lemma eval_get_oauth2_token (page : request) (form_error : option error)
    (signin token : request) (now : Z) (st : store) (c : GeBaseClient) :
  eval (_async_get_oauth2_token page form_error signin token now st) c =
  match checked page with
  | inr e => (Some e, st)
  | inl _ =>
      match form_error with
      | Some e => (Some e, st)
      | None =>
          match checked signin with
          | inr e => (Some e, st)
          | inl resp =>
              match location_code resp with
              | inr e => (Some e, st)
              | inl _ =>
                  match checked token with
                  | inr e => (Some e, st)
                  | inl resp =>
                      match json_body resp with
                      | inr e => (Some e, st)
                      | inl oauth_token => store_new_token oauth_token now st
                      end
                  end
              end
          end
      end
  end.
Proof.
  unfold _async_get_oauth2_token. rewrite eval_bind, eval_ret. reflexivity.
Qed.



(** X17. [_async_get_oauth2_token] never touches the session or the
    credentials.  When it returns normally, the sign-in page, the sign-in
    redirect and the token response all had a status below 400, the
    redirect carried a code, and the store holds the access token, the
    refresh token and the expiry time (time of the call plus [expires_in]
    less 120 seconds) of the token response. *)
Theorem full_login_success_stores_the_token_response :
  forall (page : request) (form_error : option error) (signin token : request)
         (now : Z) (st : store) (c : GeBaseClient),
    let r :=
      eval (_async_get_oauth2_token page form_error signin token now st) c in
    _session (snd r) = _session st /\
    _credentials (snd r) = _credentials st /\
    (fst r = None ->
     exists page_resp signin_resp token_resp code oauth_token access
            expires_in refresh,
       page = inl page_resp /\ status page_resp < 400 /\
       form_error = None /\
       signin = inl signin_resp /\ status signin_resp < 400 /\
       location_code signin_resp = inl code /\
       token = inl token_resp /\ status token_resp < 400 /\
       json_body token_resp = inl oauth_token /\
       oauth_token !! "access_token" = Some access /\
       oauth_token !! "expires_in" = Some (JNumber expires_in) /\
       oauth_token !! "refresh_token" = Some refresh /\
       snd r =
         mkStore (_session st) (_credentials st) (Some access) (Some refresh)
           (now + (expires_in - 120))).
Proof.
  intros page form_error signin token now st c. cbv zeta.
  rewrite eval_get_oauth2_token.
  assert (Hchk : forall (req : request) (resp : response),
            checked req = inl resp -> req = inl resp /\ status resp < 400).
  { intros req resp. unfold checked, status_error.
    destruct req as [resp'|e]; [|discriminate].
    destruct ((400 <=? status resp') && (status resp' <? 500)) eqn:E1;
      [discriminate|].
    destruct (500 <=? status resp') eqn:E2; [discriminate|].
    intros [= ->]. split; [reflexivity|].
    apply Z.leb_gt in E2.
    apply Bool.andb_false_iff in E1 as [E1|E1];
      [apply Z.leb_gt in E1 | apply Z.ltb_ge in E1]; lia. }
  destruct (checked page) as [p|e] eqn:Hp; [|cbn; tauto || (repeat split; discriminate)].
  destruct form_error as [e|]; [cbn; repeat split; discriminate|].
  destruct (checked signin) as [s|e] eqn:Hs; [|cbn; repeat split; discriminate].
  destruct (location_code s) as [code|e] eqn:Hc;
    [|cbn; repeat split; discriminate].
  destruct (checked token) as [t|e] eqn:Ht; [|cbn; repeat split; discriminate].
  destruct (json_body t) as [tok|e] eqn:Hj; [|cbn; repeat split; discriminate].
  unfold store_new_token.
  destruct (tok !! "access_token") as [access|] eqn:Ha;
    [|cbn; repeat split; discriminate].
  destruct (tok !! "expires_in") as [[x|n]|] eqn:He;
    try (cbn; repeat split; discriminate).
  destruct (tok !! "refresh_token") as [refresh|] eqn:Hr;
    [|cbn; repeat split; discriminate].
  cbn [fst snd]. repeat split.
  intros _. apply Hchk in Hp as [-> Hp'], Hs as [-> Hs'], Ht as [-> Ht'].
  exists p, s, t, code, tok, access, n, refresh. repeat split; assumption.
Qed.

Lemma full_login_success_stores_the_token_response_witness :
  let ok := mkResponse 302 "" (inr (OtherError 0)) (inl "code") in
  let token :=
    mkResponse 200 ""
      (inl (<["access_token" := JString "abc"]>
              (<["expires_in" := JNumber 3600]>
                 (<["refresh_token" := JString "r"]> ∅))))
      (inr KeyError) in
  exists access refresh,
    snd (eval (_async_get_oauth2_token (inl ok) None (inl ok) (inl token)
                 1000 (store__init__ 0)) (__init__ "user" "secret")) =
    mkStore None None (Some access) (Some refresh) 4480.
Proof.
  cbv zeta.
  destruct (full_login_success_stores_the_token_response
              (inl (mkResponse 302 "" (inr (OtherError 0)) (inl "code"))) None
              (inl (mkResponse 302 "" (inr (OtherError 0)) (inl "code")))
              (inl (mkResponse 200 ""
                      (inl (<["access_token" := JString "abc"]>
                              (<["expires_in" := JNumber 3600]>
                                 (<["refresh_token" := JString "r"]> ∅))))
                      (inr KeyError)))
              1000 (store__init__ 0) (__init__ "user" "secret"))
    as (_ & _ & H).
  destruct H as (p & s & t & code & tok & access & n & refresh & _ & _ & _ &
                 _ & _ & _ & Ht & _ & Hj & _ & He & _ & Hst);
    [reflexivity|].
  exists access, refresh. rewrite Hst.
  injection Ht as <-. cbn [json_body] in Hj. injection Hj as <-.
  vm_compute in He. injection He as <-. reflexivity.
Defined.

(** ** Login, then run *)

Lemma do_calls_add_no_drive (ks : list call) (c : GeBaseClient) :
  List.filter is_drive (log (exec (do_calls ks) c)) =
  List.filter is_drive (log c).
Proof.
  apply (keeps_do_calls
           (fun c' => List.filter is_drive (log c') =
                      List.filter is_drive (log c)) is_drive true);
    cbv beta.
  - intros a0 Ha; destruct a0; (discriminate Ha || exact I).
  - intros ? ? H; exact H.
  - intros ? ? H; exact H.
  - intros ? ? H; exact H.
  - intros ? ? H; exact H.
  - intros a0 c0 Ha H. cbn [log with_log].
    rewrite List.filter_app, H. cbn [List.filter]. rewrite Ha.
    apply app_nil_r.
  - intros ? ? ? H; exact H.
  - intros c0 H.
    destruct (initialize_event_handlers_fields c0)
      as (_ & _ & _ & _ & -> & _); exact H.
  - intros ? ? H; exact H.
  - apply Forall_forall. intros k _. apply call_ok_resets.
  - reflexivity.
Qed.

Lemma run_get_credentials_and_run (max_retries : Z) (session : nat)
    (lg : login) (script : list cycle) (st : store) (c : GeBaseClient) :
  let c1 := exec (do_calls (login_calls lg)) c in
  (eval (async_get_credentials_and_run max_retries session lg script st) c,
   exec (async_get_credentials_and_run max_retries session lg script st) c) =
  match login_result lg with
  | inr e => ((inl e, with_session (Some session) st), c1)
  | inl credentials =>
      ((inr (eval (async_run_client max_retries script) c1),
        with_credentials (Some credentials) (with_session (Some session) st)),
       exec (async_run_client max_retries script) c1)
  end.
Proof.
  cbv zeta. rewrite <- run_eta.
  unfold async_get_credentials_and_run, async_get_credentials,
    async_do_full_login_flow, await.
  rewrite run_bind.
  repeat first [rewrite eval_bind | rewrite exec_bind
               | rewrite eval_ret | rewrite exec_ret].
  destruct (login_result lg) as [creds|e].
  - rewrite eval_ret, exec_ret, run_bind. reflexivity.
  - rewrite eval_ret, exec_ret. reflexivity.
Qed.

(** X18. [async_get_credentials_and_run] stores the session before the
    login.  When the login raises, its error is handed on, the credentials
    are left as they were, so that [user_id] still raises
    [GeNotAuthenticatedError] if there were none, and the supervisor is not
    started: no drive call is made.  When the login returns, its result
    becomes the credentials and the supervisor runs on the client as the
    login left it. *)
Theorem login_failure_never_starts_the_supervisor :
  forall (max_retries : Z) (session : nat) (lg : login) (script : list cycle)
         (st : store) (c : GeBaseClient),
    let r :=
      eval (async_get_credentials_and_run max_retries session lg script st)
        c in
    let c' :=
      exec (async_get_credentials_and_run max_retries session lg script st)
        c in
    let c1 := exec (do_calls (login_calls lg)) c in
    _session (snd r) = Some session /\
    (forall e : error,
       login_result lg = inr e ->
       fst r = inl e /\
       _credentials (snd r) = _credentials st /\
       (_credentials st = None -> user_id (snd r) = inr GeNotAuthenticatedError) /\
       c' = c1 /\
       List.filter is_drive (log c') = List.filter is_drive (log c)) /\
    (forall credentials : gmap string string,
       login_result lg = inl credentials ->
       fst r = inr (eval (async_run_client max_retries script) c1) /\
       _credentials (snd r) = Some credentials /\
       c' = exec (async_run_client max_retries script) c1).
Proof.
  intros max_retries session lg script st c. cbv zeta.
  pose proof (run_get_credentials_and_run max_retries session lg script st c)
    as H. cbv zeta in H.
  pose proof (f_equal fst H) as He. pose proof (f_equal snd H) as Hx.
  cbn [fst snd] in He, Hx. rewrite He, Hx. clear H He Hx.
  destruct (login_result lg) as [creds|e].
  - cbn [fst snd _session _credentials with_session with_credentials].
    split; [reflexivity|]. split.
    + intros e He; discriminate He.
    + intros creds' [= <-]. repeat split; reflexivity.
  - cbn [fst snd _session _credentials with_session].
    split; [reflexivity|]. split.
    + intros e' [= <-]. repeat split; try reflexivity.
      * intros Hn. unfold user_id. cbn [_credentials with_session].
        rewrite Hn. reflexivity.
      * apply do_calls_add_no_drive.
    + intros creds He; discriminate He.
Qed.

Lemma login_failure_never_starts_the_supervisor_witness :
  let lg := mkLogin [call_set_state AUTHORIZING_OAUTH]
              (inr (GeAuthFailedError "denied")) in
  let run :=
    async_get_credentials_and_run 3 7 lg [mkCycle [] false [] false]
      (store__init__ 0) in
  fst (eval run (__init__ "user" "secret")) = inl (GeAuthFailedError "denied") /\
  List.filter is_drive (log (exec run (__init__ "user" "secret"))) = [].
Proof.
  cbv zeta.
  destruct (login_failure_never_starts_the_supervisor 3 7
              (mkLogin [call_set_state AUTHORIZING_OAUTH]
                 (inr (GeAuthFailedError "denied")))
              [mkCycle [] false [] false] (store__init__ 0)
              (__init__ "user" "secret")) as (_ & H & _).
  destruct (H (GeAuthFailedError "denied") eq_refl) as (H1 & _ & _ & _ & H5).
  split; [exact H1 | exact H5].
Defined.
